(** * CxAlloy system pull: the reconciliation engine of [On-Demand_systempull.py]

    A shallow embedding of [upsert_data] (the compare-and-classify loop that
    decides insert / update-with-archive / no-op for every fetched record), of
    the module-level configuration check and of the project selection made by
    [main], together with the properties the specification states about them.

    Modelling choices, all read off the source:
    - a record is the Python dict with the twelve keys the code reads; a key
      that is absent and a key bound to [None] both give [None] under
      [record.get], so each field is an [option];
    - the nine compared columns are [NVARCHAR], hence strings; the two
      [DATETIME] columns hold a [datetime] or [None]; a fetched record holds
      strings (or nulls) in the nine compared attributes too, the payloads
      for which the store gives back what was written: a payload with a JSON
      number in one of them is outside the model (the code compares it
      unconverted with the string the column returns);
    - a table is the list of its rows in [IDX] order (the surrogate key is the
      position); [system_id] carries no uniqueness constraint, and
      [WHERE system_id = ?] selects the rows whose [system_id] is that very
      string (a null never matches);
    - pyodbc connections do not autocommit: a statement changes the
      connection's own view of the tables, [connection.commit()] makes that
      view durable, and an exception rolls nothing back;
    - any [cursor.execute] and [connection.commit] may raise; which ones do is
      given by an oracle, like the wall clock read by [datetime.now()]. *)

From Stdlib Require Import String Ascii List ZArith Bool Arith Lia Permutation.
Import ListNotations.
Open Scope string_scope.

(** ** Records and tables *)

(** Seconds since the epoch; only ever stored, copied and printed. *)
Definition datetime := Z.

Record SystemRecord := mkRecord {
  system_id : option string;
  project_id : option string;
  name : option string;
  description : option string;
  building_id : option string;
  building : option string;
  discipline_id : option string;
  discipline : option string;
  timeUpdated : option datetime;
  checklist_id : option string;
  checklist_name : option string;
  handover_date : option datetime
}.

(** [record.get(key)] for the text-valued keys. *)
Definition record_get (key : string) (record : SystemRecord) : option string :=
  if key =? "system_id" then system_id record
  else if key =? "project_id" then project_id record
  else if key =? "name" then name record
  else if key =? "description" then description record
  else if key =? "building_id" then building_id record
  else if key =? "building" then building record
  else if key =? "discipline_id" then discipline_id record
  else if key =? "discipline" then discipline record
  else if key =? "checklist_id" then checklist_id record
  else if key =? "checklist_name" then checklist_name record
  else None.

(** The keys of the comparison loop (lines 191-192). *)
Definition COMPARED_KEYS : list string :=
  ["project_id"; "name"; "description"; "building_id"; "building";
   "discipline_id"; "discipline"; "checklist_id"; "checklist_name"].

Definition CSV_COLUMNS : list string :=
  ["timestamp"; "action"; "system_id";
   "old_project_id"; "new_project_id";
   "old_name"; "new_name";
   "old_description"; "new_description";
   "old_building_id"; "new_building_id";
   "old_building"; "new_building";
   "old_discipline_id"; "new_discipline_id";
   "old_discipline"; "new_discipline";
   "old_timeUpdated"; "new_timeUpdated";
   "old_checklist_id"; "new_checklist_id";
   "old_checklist_name"; "new_checklist_name";
   "old_handover_date"; "new_handover_date"].

(** Python [==] on two values that are each [None] or a string. *)
Definition py_eq (a b : option string) : bool :=
  match a, b with
  | None, None => true
  | Some x, Some y => x =? y
  | _, _ => false
  end.

Definition py_ne (a b : option string) : bool := negb (py_eq a b).

Record Tables := mkTables {
  main_table : list SystemRecord;
  history_table : list SystemRecord
}.

(** [committed] is what the store holds durably, [session] what this
    connection sees (committed state plus its own uncommitted statements). *)
Record Connection := mkConnection {
  committed : Tables;
  session : Tables
}.

Definition connect (db : Tables) : Connection := mkConnection db db.

(** [WHERE system_id = ?] *)
Definition where_system_id (sid : string) (row : SystemRecord) : bool :=
  py_eq (system_id row) (Some sid).

(** [SELECT ... FROM main WHERE system_id = ?] followed by [fetchone()]. *)
Definition select_fetchone (sid : string) (t : Tables) : option SystemRecord :=
  find (where_system_id sid) (main_table t).

(** [INSERT INTO main (...) VALUES (...)] *)
Definition insert_main (row : SystemRecord) (t : Tables) : Tables :=
  mkTables (main_table t ++ [row]) (history_table t).

(** [INSERT INTO history (...) VALUES (...)]; the [archived_at] default is
    filled in by the server and is not part of a row here. *)
Definition insert_history (row : SystemRecord) (t : Tables) : Tables :=
  mkTables (main_table t) (history_table t ++ [row]).

(** The [SET] clause: every column but [system_id] takes the record's value. *)
Definition set_columns (record row : SystemRecord) : SystemRecord :=
  mkRecord (system_id row) (project_id record) (name record)
    (description record) (building_id record) (building record)
    (discipline_id record) (discipline record) (timeUpdated record)
    (checklist_id record) (checklist_name record) (handover_date record).

(** What [UPDATE main SET ... WHERE system_id = ?] does to one row. *)
Definition update_row (sid : string) (record row : SystemRecord) : SystemRecord :=
  if where_system_id sid row then set_columns record row else row.

(** [UPDATE main SET ... WHERE system_id = ?] *)
Definition update_main (sid : string) (record : SystemRecord) (t : Tables) : Tables :=
  mkTables (map (update_row sid record) (main_table t)) (history_table t).

(** ** Change-log entries: Python dicts with string keys and values *)

Definition dict := list (string * string).

Fixpoint dict_get (k : string) (d : dict) : option string :=
  match d with
  | [] => None
  | (k', v) :: d' => if k' =? k then Some v else dict_get k d'
  end.

(** [d[k] = v]: rebinds an existing key in place, else appends. *)
Fixpoint dict_set (k v : string) (d : dict) : dict :=
  match d with
  | [] => [(k, v)]
  | (k', v') :: d' => if k' =? k then (k, v) :: d' else (k', v') :: dict_set k v d'
  end.

Definition mem (k : string) (l : list string) : bool :=
  existsb (String.eqb k) l.

(** [str(v) if v is not None else ""] *)
Definition str_or_blank (v : option string) : string :=
  match v with Some s => s | None => "" end.

(** The entry appended on either insert path (lines 157-162, 274-279). *)
Definition insert_entry (timestamp subject : string) : dict :=
  fold_left (fun d col => dict_set col "" d)
    (filter (fun col => negb (mem col ["timestamp"; "action"; "system_id"])) CSV_COLUMNS)
    [("timestamp", timestamp); ("action", "insert"); ("system_id", subject)].

(** ** The loop state and its monad

    The body of the [try] block runs statements that may raise while it
    updates the counters and the log in place; an exception leaves every
    change made so far standing.  [Exec A] is state passing with that kind of
    exception: [None] is "raised", and the state comes back either way. *)

Record LoopState := mkState {
  connection : Connection;
  rows_added : nat;
  rows_updated : nat;
  historical_count : nat;
  changes_log : list dict
}.

Definition Exec (A : Type) : Type := LoopState -> option A * LoopState.

Definition ret {A} (a : A) : Exec A := fun st => (Some a, st).

Definition raise {A} : Exec A := fun st => (None, st).

Definition bind {A B} (c : Exec A) (k : A -> Exec B) : Exec B :=
  fun st =>
    match c st with
    | (Some a, st') => k a st'
    | (None, st') => (None, st')
    end.

Notation "x <- c1 ;; c2" := (bind c1 (fun x => c2))
  (at level 61, c1 at next level, right associativity).
Notation "c1 ;; c2" := (bind c1 (fun _ => c2))
  (at level 61, right associativity).

Definition with_session (f : Tables -> Tables) (st : LoopState) : LoopState :=
  mkState (mkConnection (committed (connection st)) (f (session (connection st))))
    (rows_added st) (rows_updated st) (historical_count st) (changes_log st).

(** [connection.commit()] *)
Definition commit (st : LoopState) : LoopState :=
  mkState (mkConnection (session (connection st)) (session (connection st)))
    (rows_added st) (rows_updated st) (historical_count st) (changes_log st).

Definition incr_rows_added : Exec unit := fun st =>
  (Some tt, mkState (connection st) (S (rows_added st)) (rows_updated st)
              (historical_count st) (changes_log st)).

Definition incr_rows_updated : Exec unit := fun st =>
  (Some tt, mkState (connection st) (rows_added st) (S (rows_updated st))
              (historical_count st) (changes_log st)).

Definition incr_historical_count : Exec unit := fun st =>
  (Some tt, mkState (connection st) (rows_added st) (rows_updated st)
              (S (historical_count st)) (changes_log st)).

(** [changes_log.append(entry)] *)
Definition log_append (entry : dict) : Exec unit := fun st =>
  (Some tt, mkState (connection st) (rows_added st) (rows_updated st)
              (historical_count st) (changes_log st ++ [entry])).

(** The statements the loop sends to the store. *)
Inductive statement :=
  | SELECT_main
  | INSERT_main
  | INSERT_history
  | UPDATE_main
  | COMMIT.

Definition statement_eqb (a b : statement) : bool :=
  match a, b with
  | SELECT_main, SELECT_main | INSERT_main, INSERT_main
  | INSERT_history, INSERT_history | UPDATE_main, UPDATE_main
  | COMMIT, COMMIT => true
  | _, _ => false
  end.

(** What became of a call of [upsert_data]: it returned, or the exception of a
    [connection.commit()] (line 284, outside the [try]) left it. *)
Inductive outcome :=
  | Returned (st : LoopState)
  | Propagated (st : LoopState).

Definition final (o : outcome) : LoopState :=
  match o with Returned st => st | Propagated st => st end.

Section Reconciler.

(** [datetime.isoformat] *)
Variable isoformat : datetime -> string.

(** [raises i s]: statement [s] raises if it is executed while record
    number [i] of the batch is processed. *)
Variable raises : nat -> statement -> bool.

(** [now i]: [datetime.now().isoformat()] while record [i] is processed. *)
Variable now : nat -> string.

(** [cursor.execute] of a writing statement. *)
Definition execute (i : nat) (s : statement) (effect : Tables -> Tables) : Exec unit :=
  fun st => if raises i s then raise st else (Some tt, with_session effect st).

(** [cursor.execute(select_query, (system_id,))] and [cursor.fetchone()]. *)
Definition execute_select (i : nat) (sid : string) : Exec (option SystemRecord) :=
  fun st =>
    if raises i SELECT_main then raise st
    else (Some (select_fetchone sid (session (connection st))), st).

(** [x.isoformat() if x else ""]; a [datetime] is always truthy, and the
    [AttributeError] handlers are for values that are not datetimes, which
    the two [DATETIME] columns never hold. *)
Definition isoformat_or_blank (v : option datetime) : string :=
  match v with Some d => isoformat d | None => "" end.

(** One turn of the loop over the compared keys (lines 193-201). *)
Definition compare_key (record existing_record : SystemRecord)
    (acc : bool * dict) (key : string) : bool * dict :=
  let '(record_changed, change_details) := acc in
  let new_val := record_get key record in
  let old_val := record_get key existing_record in
  if py_ne new_val old_val then
    (true,
     dict_set ("new_" ++ key) (str_or_blank new_val)
       (dict_set ("old_" ++ key) (str_or_blank old_val) change_details))
  else
    (record_changed,
     dict_set ("new_" ++ key) (str_or_blank new_val)
       (dict_set ("old_" ++ key) (str_or_blank old_val) change_details)).

(** Lines 188-228: the flag [record_changed] and the dict [change_details]. *)
Definition compare_records (timestamp sid : string)
    (record existing_record : SystemRecord) : bool * dict :=
  let '(record_changed, change_details) :=
    fold_left (compare_key record existing_record) COMPARED_KEYS
      (false, [("timestamp", timestamp); ("action", "update"); ("system_id", sid)]) in
  let change_details :=
    dict_set "old_handover_date" (isoformat_or_blank (handover_date existing_record))
      change_details in
  let change_details :=
    dict_set "new_handover_date" (isoformat_or_blank (handover_date record))
      change_details in
  let change_details :=
    dict_set "old_timeUpdated" (isoformat_or_blank (timeUpdated existing_record))
      change_details in
  let change_details :=
    dict_set "new_timeUpdated" (isoformat_or_blank (timeUpdated record))
      change_details in
  (record_changed, change_details).

(** The row of values bound to an [INSERT INTO main]: the given
    [system_id] and the record's other eleven columns. *)
Definition insert_values (sid : option string) (record : SystemRecord) : SystemRecord :=
  mkRecord sid (project_id record) (name record)
    (description record) (building_id record) (building record)
    (discipline_id record) (discipline record) (timeUpdated record)
    (checklist_id record) (checklist_name record) (handover_date record).

(** The body of the [try] block for record number [i] (lines 144-279). *)
Definition process_record (i : nat) (record : SystemRecord) : Exec unit :=
  match system_id record with
  | None =>
      execute i INSERT_main (insert_main (insert_values None record)) ;;
      incr_rows_added ;;
      log_append (insert_entry (now i) "None")
  | Some sid =>
      existing_row <- execute_select i sid ;;
      match existing_row with
      | Some existing_record =>
          let '(record_changed, change_details) :=
            compare_records (now i) sid record existing_record in
          if record_changed then
            execute i INSERT_history (insert_history existing_record) ;;
            incr_historical_count ;;
            execute i UPDATE_main (update_main sid record) ;;
            incr_rows_updated ;;
            log_append change_details
          else ret tt
      | None =>
          execute i INSERT_main (insert_main (insert_values (Some sid) record)) ;;
          incr_rows_added ;;
          log_append (insert_entry (now i) sid)
      end
  end.

(** The [for] loop (lines 141-284), from record number [i] on: an exception
    in the body is swallowed and the commit skipped ([continue]); an
    exception of the commit itself leaves the function. *)
Fixpoint upsert_loop (i : nat) (data : list SystemRecord) (st : LoopState) : outcome :=
  match data with
  | [] => Returned st
  | record :: rest =>
      match process_record i record st with
      | (None, st') => upsert_loop (S i) rest st'
      | (Some _, st') =>
          if raises i COMMIT then Propagated st'
          else upsert_loop (S i) rest (commit st')
      end
  end.

Definition initial_state (conn : Connection) : LoopState :=
  mkState conn 0 0 0 [].

Definition upsert_data (conn : Connection) (data : list SystemRecord) : outcome :=
  upsert_loop 0 data (initial_state conn).

(** The tuple of line 297, without the log file's name. *)
Definition returned_counts (st : LoopState) : nat * nat * nat :=
  (rows_updated st, rows_added st, historical_count st).

End Reconciler.

(** ** Configuration and entry point *)

(** The process environment after [load_dotenv]: [os.getenv] of the six
    variables the module reads. *)
Record Environ := mkEnviron {
  getenv_IDENTIFIER : option string;
  getenv_SECRET : option string;
  getenv_SNAME : option string;
  getenv_DBASE : option string;
  getenv_UNAME : option string;
  getenv_PASS : option string
}.

Definition IDENTIFIER (env : Environ) : option string := getenv_IDENTIFIER env.
Definition SECRET_KEY (env : Environ) : option string := getenv_SECRET env.

Record SqlServerConfig := mkSqlServerConfig {
  server : option string;
  database : option string;
  username : option string;
  password : option string
}.

Definition SQL_SERVER_CONFIG (env : Environ) : SqlServerConfig :=
  mkSqlServerConfig (getenv_SNAME env) (getenv_DBASE env)
    (getenv_UNAME env) (getenv_PASS env).

(** Python [not v] for [v] that is [None] or a string. *)
Definition py_not (v : option string) : bool :=
  match v with None => true | Some s => s =? "" end.

(** The condition of line 31: [true] when [ValueError] is raised. *)
Definition missing_environment_variables (env : Environ) : bool :=
  py_not (IDENTIFIER env) || py_not (SECRET_KEY env)
  || py_not (server (SQL_SERVER_CONFIG env))
  || py_not (database (SQL_SERVER_CONFIG env)).

(** A value interpolated into an f-string. *)
Definition py_format (v : option string) : string :=
  match v with None => "None" | Some s => s end.

(** [conn_str] of [connect_db]. *)
Definition conn_str (env : Environ) : string :=
  "DRIVER={ODBC Driver 17 for SQL Server};" ++
  "SERVER=" ++ py_format (server (SQL_SERVER_CONFIG env)) ++ ";" ++
  "DATABASE=" ++ py_format (database (SQL_SERVER_CONFIG env)) ++ ";" ++
  "UID=" ++ py_format (username (SQL_SERVER_CONFIG env)) ++ ";" ++
  "PWD=" ++ py_format (password (SQL_SERVER_CONFIG env)).

(** An entry of the list-projects response. *)
Record Project := mkProject {
  proj_project_id : string;
  proj_name : string
}.

(** Python [sub in s] on strings. *)
Fixpoint py_in (sub s : string) : bool :=
  prefix sub s ||
  match s with
  | EmptyString => false
  | String _ s' => py_in sub s'
  end.

(** Line 402. *)
Definition select_project_ids (projects : list Project) : list string :=
  map proj_project_id (filter (fun proj => py_in "GFTX" (proj_name proj)) projects).

(** What the process does to the outside world, in order. *)
Inductive event :=
  | GET_project
  | GET_system (project_id : string)
  | CONNECT (conn_str : string)
  | CREATE_TABLE_IF_NOT_EXISTS (table_name : string)
  | UPSERT (data : list SystemRecord)
  | CLOSE.

Inductive run :=
  | ValueError (msg : string)
  | Ran (trace : list event) (reconciled : option outcome).

Section EntryPoint.

Variable isoformat : datetime -> string.
Variable raises : nat -> statement -> bool.
Variable now : nat -> string.

Variable env : Environ.

(** The list [get_project_list] returns ([[]] on a request error). *)
Variable get_project_list : list Project.

(** What the paging loop of [fetch_data_for_projects] adds to [all_data] for
    one project: its pages, normalised by [process_equipment_data], up to
    the first short, empty or failed page. *)
Variable fetch_pages : string -> list SystemRecord.

(** [pyodbc.connect]: the store's tables, or [None] when it raises. *)
Variable pyodbc_connect : string -> option Tables.

Definition fetch_data_for_projects (project_ids : list string) : list SystemRecord :=
  flat_map fetch_pages project_ids.

(** [main], lines 395-423; an exception ends the trace where it happens
    (the two schema statements are taken to go through). *)
Definition main : run :=
  let projects := get_project_list in
  match projects with
  | [] => Ran [GET_project] None
  | _ :: _ =>
      let project_ids := select_project_ids projects in
      let system_data := fetch_data_for_projects project_ids in
      let fetched := GET_project :: map GET_system project_ids in
      match system_data with
      | [] => Ran fetched None
      | _ :: _ =>
          match pyodbc_connect (conn_str env) with
          | None => Ran (fetched ++ [CONNECT (conn_str env)]) None
          | Some db =>
              let o := upsert_data isoformat raises now (connect db) system_data in
              Ran (fetched ++
                   [CONNECT (conn_str env);
                    CREATE_TABLE_IF_NOT_EXISTS "GFTX_CXALLOY_System_DATA";
                    CREATE_TABLE_IF_NOT_EXISTS "GFTX_CXALLOY_System_DATA_History";
                    UPSERT system_data] ++
                   match o with Returned _ => [CLOSE] | Propagated _ => [] end)
                  (Some o)
          end
      end
  end.

(** The module from its first line: the check of lines 31-32, then
    [main()] under [__main__]. *)
Definition program : run :=
  if missing_environment_variables env
  then ValueError "Missing environment variables"
  else main.

End EntryPoint.

Definition trace_of (r : run) : list event :=
  match r with ValueError _ => [] | Ran t _ => t end.

(** ** Vocabulary of the properties *)

(** The fetched record and the persisted row agree on the nine compared
    attributes (null-safe: [None] agrees with [None] only). *)
Definition same_compared (record existing_record : SystemRecord) : Prop :=
  project_id record = project_id existing_record /\
  name record = name existing_record /\
  description record = description existing_record /\
  building_id record = building_id existing_record /\
  building record = building existing_record /\
  discipline_id record = discipline_id existing_record /\
  discipline record = discipline existing_record /\
  checklist_id record = checklist_id existing_record /\
  checklist_name record = checklist_name existing_record.

(** The test of line 195 for one key. *)
Definition differs (record existing_record : SystemRecord) (key : string) : bool :=
  py_ne (record_get key record) (record_get key existing_record).


(** ** Sample data for the worked instances *)

Definition sample_isoformat (d : datetime) : string := "2025-01-01T00:00:00".
Definition sample_now (i : nat) : string := "2025-06-01T12:00:00".
Definition never_raises (i : nat) (s : statement) : bool := false.

(** Statement [s] raises while record number [k] is processed, nothing else does. *)
Definition raises_at (k : nat) (s : statement) (i : nat) (s' : statement) : bool :=
  (i =? k)%nat && statement_eqb s' s.

(** The persisted row and the fetched record of the specification's first
    scenario, the latter stamped with a fetch time. *)
Definition row_S1_A : SystemRecord :=
  mkRecord (Some "S1") None (Some "A") None None (Some "B1") None None None None None None.

Definition fetched_S1_A2 : SystemRecord :=
  mkRecord (Some "S1") None (Some "A2") None None (Some "B1") None None
    (Some 1700000000%Z) None None None.

(** The persisted row again, as a later fetch would deliver it: a new fetch
    time and a handover date, the compared attributes as before. *)
Definition fetched_S1_A : SystemRecord :=
  mkRecord (Some "S1") None (Some "A") None None (Some "B1") None None
    (Some 1700000000%Z) None None (Some 1690000000%Z).

(** The specification's second scenario: no identifier yet. *)
Definition fetched_null_P1 : SystemRecord :=
  mkRecord None (Some "P1") None None None None None None
    (Some 1700000000%Z) None None None.

Definition fetched_S2 : SystemRecord :=
  mkRecord (Some "S2") (Some "P1") (Some "Chiller") None None None None None
    (Some 1700000000%Z) None None None.

Definition store_S1 : Tables := mkTables [row_S1_A] [].
Definition empty_store : Tables := mkTables [] [].


(** [entry["action"] == a] *)
Definition has_action (a : string) (entry : dict) : bool :=
  match dict_get "action" entry with Some x => x =? a | None => false end.

Definition count_action (a : string) (log : list dict) : nat :=
  length (filter (has_action a) log).

(** The counters agree with the log. *)
Definition counts_match_log (st : LoopState) : Prop :=
  rows_added st = count_action "insert" (changes_log st) /\
  rows_updated st = count_action "update" (changes_log st).

(** What a cell of the audit line holds for a value, in the words of the
    specification and apart from the helpers of the code: a text value as it
    is, a timestamp in ISO format, null as the empty string. *)
Definition text_cell (v : option string) : option string :=
  match v with
  | Some s => Some s
  | None => Some ""
  end.

Definition time_cell (isoformat : datetime -> string) (v : option datetime)
    : option string :=
  match v with
  | Some d => Some (isoformat d)
  | None => Some ""
  end.

(** [entry] carries the subject and, for each of the eleven tracked fields
    by name, the old value (that field of [existing_record]) under its
    ["old_"] column and the new one (that field of [record]) under its
    ["new_"] column. *)
Definition update_entry_of (isoformat : datetime -> string)
    (record existing_record : SystemRecord) (entry : dict) : Prop :=
  (exists sid, system_id record = Some sid /\ dict_get "system_id" entry = Some sid) /\
  dict_get "old_project_id" entry = text_cell (project_id existing_record) /\
  dict_get "new_project_id" entry = text_cell (project_id record) /\
  dict_get "old_name" entry = text_cell (name existing_record) /\
  dict_get "new_name" entry = text_cell (name record) /\
  dict_get "old_description" entry = text_cell (description existing_record) /\
  dict_get "new_description" entry = text_cell (description record) /\
  dict_get "old_building_id" entry = text_cell (building_id existing_record) /\
  dict_get "new_building_id" entry = text_cell (building_id record) /\
  dict_get "old_building" entry = text_cell (building existing_record) /\
  dict_get "new_building" entry = text_cell (building record) /\
  dict_get "old_discipline_id" entry = text_cell (discipline_id existing_record) /\
  dict_get "new_discipline_id" entry = text_cell (discipline_id record) /\
  dict_get "old_discipline" entry = text_cell (discipline existing_record) /\
  dict_get "new_discipline" entry = text_cell (discipline record) /\
  dict_get "old_checklist_id" entry = text_cell (checklist_id existing_record) /\
  dict_get "new_checklist_id" entry = text_cell (checklist_id record) /\
  dict_get "old_checklist_name" entry = text_cell (checklist_name existing_record) /\
  dict_get "new_checklist_name" entry = text_cell (checklist_name record) /\
  dict_get "old_timeUpdated" entry = time_cell isoformat (timeUpdated existing_record) /\
  dict_get "new_timeUpdated" entry = time_cell isoformat (timeUpdated record) /\
  dict_get "old_handover_date" entry = time_cell isoformat (handover_date existing_record) /\
  dict_get "new_handover_date" entry = time_cell isoformat (handover_date record).

(** The loop state after each way the body can end. *)
Definition subject_of (record : SystemRecord) : string :=
  match system_id record with None => "None" | Some sid => sid end.

Definition inserted (timestamp : string) (record : SystemRecord) (st : LoopState) : LoopState :=
  mkState
    (mkConnection (committed (connection st))
       (insert_main record (session (connection st))))
    (S (rows_added st)) (rows_updated st) (historical_count st)
    (changes_log st ++ [insert_entry timestamp (subject_of record)]).

Definition archived (existing_record : SystemRecord) (st : LoopState) : LoopState :=
  mkState
    (mkConnection (committed (connection st))
       (insert_history existing_record (session (connection st))))
    (rows_added st) (rows_updated st) (S (historical_count st)) (changes_log st).

Definition updated (sid : string) (record : SystemRecord) (entry : dict)
    (st : LoopState) : LoopState :=
  mkState
    (mkConnection (committed (connection st))
       (update_main sid record (session (connection st))))
    (rows_added st) (S (rows_updated st)) (historical_count st)
    (changes_log st ++ [entry]).

(** [turn ... record st st']: the body of the loop, run on [record] in state
    [st], can end in [st']. *)
Inductive turn (isoformat : datetime -> string) (timestamp : string)
    (record : SystemRecord) (st : LoopState) : LoopState -> Prop :=
  | turn_nothing :
      turn isoformat timestamp record st st
  | turn_inserted :
      turn isoformat timestamp record st (inserted timestamp record st)
  | turn_archived sid existing_record :
      system_id record = Some sid ->
      select_fetchone sid (session (connection st)) = Some existing_record ->
      turn isoformat timestamp record st (archived existing_record st)
  | turn_updated sid existing_record :
      system_id record = Some sid ->
      select_fetchone sid (session (connection st)) = Some existing_record ->
      turn isoformat timestamp record st
        (updated sid record
           (snd (compare_records isoformat timestamp sid record existing_record))
           (archived existing_record st)).

(** Every update entry of the log was built from a record of the batch and a
    row that has since been archived. *)
Definition update_entries_complete (isoformat : datetime -> string)
    (data : list SystemRecord) (st : LoopState) : Prop :=
  forall entry,
    In entry (changes_log st) ->
    dict_get "action" entry = Some "update" ->
    exists record existing_record,
      In record data /\
      In existing_record (history_table (session (connection st))) /\
      update_entry_of isoformat record existing_record entry.

(** Every row has a [system_id] and no two rows share one. *)
Definition keyed (rows : list SystemRecord) : Prop :=
  (forall row, In row rows -> system_id row <> None) /\
  NoDup (map system_id rows).

(** [record] is one of [rows] as far as [system_id] and the nine compared
    attributes go. *)
Definition drawn_from (rows : list SystemRecord) (record : SystemRecord) : Prop :=
  exists row, In row rows /\ system_id record = system_id row /\ same_compared record row.


(** The non-null identifiers of a batch, in order. *)
Definition batch_ids (data : list SystemRecord) : list string :=
  flat_map (fun record => match system_id record with Some sid => [sid] | None => [] end)
    data.

(** Two loop states hold the same store and the same counts: the tables have
    the same rows up to their order ([IDX] apart), the rows of any one
    [system_id] even in the same order, and the counters are equal. *)
Definition same_store (st1 st2 : LoopState) : Prop :=
  Permutation (main_table (session (connection st1)))
              (main_table (session (connection st2))) /\
  (forall sid,
     filter (where_system_id sid) (main_table (session (connection st1))) =
     filter (where_system_id sid) (main_table (session (connection st2)))) /\
  Permutation (history_table (session (connection st1)))
              (history_table (session (connection st2))) /\
  rows_added st1 = rows_added st2 /\
  rows_updated st1 = rows_updated st2 /\
  historical_count st1 = historical_count st2.

(** A duplicated identifier: the same [system_id] fetched twice with two names. *)
Definition fetched_S2_renamed : SystemRecord :=
  mkRecord (Some "S2") (Some "P1") (Some "Chiller 2") None None None None None
    (Some 1700000000%Z) None None None.


(** The projects whose systems a trace fetches, in order. *)
Definition fetched_projects (trace : list event) : list string :=
  flat_map (fun e => match e with GET_system pid => [pid] | _ => [] end) trace.

(** [sub] occurs in [s]. *)
Definition occurs_in (sub s : string) : Prop :=
  exists pre post, s = pre ++ sub ++ post.

(** An environment with everything but the store's user and password. *)
Definition env_without_login : Environ :=
  mkEnviron (Some "api-id") (Some "api-secret") (Some "sqlhost") (Some "cxalloy")
    None None.

Definition sample_projects : list Project :=
  [mkProject "P1" "GFTX Campus"; mkProject "P2" "Harbour Tower"].


(** ** The audit file (lines 287-296) *)

(** [csv.DictWriter._dict_to_list] with the defaults the code leaves in place
    ([extrasaction='raise'], [restval='']): [None] is the [ValueError] for a
    key that is no field name; a field name the dict lacks gives [""]. *)
Definition dict_to_list (fieldnames : list string) (rowdict : dict) : option (list string) :=
  if forallb (fun kv => mem (fst kv) fieldnames) rowdict
  then Some (map (fun col => match dict_get col rowdict with Some v => v | None => "" end)
               fieldnames)
  else None.

(** [writer.writerows(changes_log)]: the rows written, or [None] when a row raises. *)
Fixpoint writerows (fieldnames : list string) (rowdicts : list dict)
    : option (list (list string)) :=
  match rowdicts with
  | [] => Some []
  | rowdict :: rest =>
      match dict_to_list fieldnames rowdict with
      | None => None
      | Some row =>
          match writerows fieldnames rest with
          | None => None
          | Some rows => Some (row :: rows)
          end
      end
  end.

(** The lines of [data_changes_log.csv], header first, as lists of fields. *)
Definition write_changes_log (changes_log : list dict) : option (list (list string)) :=
  match writerows CSV_COLUMNS changes_log with
  | None => None
  | Some rows => Some (CSV_COLUMNS :: rows)
  end.

(** The entry has a value under every column of the file and no other key. *)
Definition entry_fits (entry : dict) : bool :=
  forallb (fun kv => mem (fst kv) CSV_COLUMNS) entry &&
  forallb (fun col => match dict_get col entry with Some _ => true | None => false end)
    CSV_COLUMNS.

(** ** Normalising the fetched payload (lines 318-359) *)

(** The JSON objects of a page of the list-systems response, with the keys
    the code reads. [None] is a key that is absent; lists that are absent
    are empty, as [record.get(key, [])] has it. *)
Record RawSystem := mkRawSystem {
  sys_system_id : option string
}.

Record RawAttribute := mkRawAttribute {
  attr_name : option string;
  attr_value : option string
}.

Record RawChecklist := mkRawChecklist {
  cl_checklist_id : option string;
  cl_name : option string
}.

Record RawRecord := mkRawRecord {
  raw_system_id : option string;
  raw_project_id : option string;
  raw_name : option string;
  raw_description : option string;
  raw_building_id : option string;
  raw_building : option string;
  raw_discipline_id : option string;
  raw_discipline : option string;
  raw_checklist_name : option string;
  raw_systems : list RawSystem;
  raw_attributes : list RawAttribute;
  raw_checklists : list RawChecklist
}.

(** [str.lower] on the ASCII letters; other bytes are left as they are (no
    character outside ASCII lowers to a letter of ["handover date"]). *)
Definition ascii_lower (c : ascii) : ascii :=
  let n := nat_of_ascii c in
  if (65 <=? n)%nat && (n <=? 90)%nat then ascii_of_nat (n + 32) else c.

Fixpoint lower (s : string) : string :=
  match s with
  | EmptyString => EmptyString
  | String c s' => String (ascii_lower c) (lower s')
  end.

(** [date_str.replace("Z", "+00:00")] *)
Fixpoint replace_Z (s : string) : string :=
  match s with
  | EmptyString => EmptyString
  | String c s' =>
      if Ascii.eqb c "Z" then "+00:00" ++ replace_Z s' else String c (replace_Z s')
  end.

(** Lines 335-339: the [system_id] of the last entry of [systems], and the
    record's own when that is missing or empty. *)
Definition resolve_system_id (record : RawRecord) : option string :=
  let sid := fold_left (fun _ system => sys_system_id system) (raw_systems record) None in
  if py_not sid then raw_system_id record else sid.

(** Lines 354-357: [(checklist_id, checklist_name)] after the loop. *)
Definition resolve_checklist (record : RawRecord) : option string * option string :=
  fold_left (fun _ checklist => (cl_checklist_id checklist, cl_name checklist))
    (raw_checklists record) (None, raw_checklist_name record).

Section Fetcher.

(** [datetime.fromisoformat(s).replace(tzinfo=timezone.utc)], [None] when
    [fromisoformat] raises [ValueError]. *)
Variable fromisoformat_utc : string -> option datetime.

(** Lines 343-352: the loop over [attributes], left at the first attribute
    named "handover date" that has a value. *)
Fixpoint handover_of (attributes : list RawAttribute) : option datetime :=
  match attributes with
  | [] => None
  | attr :: rest =>
      if lower (match attr_name attr with Some n => n | None => "" end) =? "handover date"
      then
        match attr_value attr with
        | Some date_str =>
            if date_str =? "" then handover_of rest
            else fromisoformat_utc (replace_Z date_str)
        | None => handover_of rest
        end
      else handover_of rest
  end.

(** One turn of the loop of [process_equipment_data]; [time_updated] is
    [datetime.now(timezone.utc)]. *)
Definition process_equipment (time_updated : datetime) (record : RawRecord) : SystemRecord :=
  mkRecord (resolve_system_id record)
    (raw_project_id record) (raw_name record) (raw_description record)
    (raw_building_id record) (raw_building record)
    (raw_discipline_id record) (raw_discipline record)
    (Some time_updated)
    (fst (resolve_checklist record)) (snd (resolve_checklist record))
    (handover_of (raw_attributes record)).

(** [process_equipment_data], from record number [i] on; [utcnow i] is the
    clock when record [i] is reached. *)
Fixpoint process_equipment_from (utcnow : nat -> datetime) (i : nat)
    (data : list RawRecord) : list SystemRecord :=
  match data with
  | [] => []
  | record :: rest =>
      process_equipment (utcnow i) record :: process_equipment_from utcnow (S i) rest
  end.

Definition process_equipment_data (utcnow : nat -> datetime) (data : list RawRecord)
    : list SystemRecord :=
  process_equipment_from utcnow 0 data.

(** The list-systems endpoint: the JSON of page [page] for a project, [None]
    when the request raises [aiohttp.ClientError]. *)
Variable api_system : string -> nat -> option (list RawRecord).

(** The clock while page [page] of a project is normalised. *)
Variable utcnow : string -> nat -> nat -> datetime.

(** The [while True] loop of lines 376-392 from page [page] on. [None]: the
    loop is still running when the fuel is spent. *)
Fixpoint fetch_pages_loop (fuel : nat) (project_id : string) (page : nat)
    : option (list SystemRecord) :=
  match fuel with
  | 0 => None
  | S fuel' =>
      match api_system project_id page with
      | None => Some []
      | Some [] => Some []
      | Some page_data =>
          let processed_data := process_equipment_data (utcnow project_id page) page_data in
          if (length page_data <? 500)%nat then Some processed_data
          else
            match fetch_pages_loop fuel' project_id (S page) with
            | None => None
            | Some more => Some (processed_data ++ more)%list
            end
      end
  end.

(** [fetch_data_for_projects] with its paging: [all_data] after the loop over
    the projects, each started at page 1. *)
Fixpoint paged_fetch_data_for_projects (fuel : nat) (project_ids : list string)
    : option (list SystemRecord) :=
  match project_ids with
  | [] => Some []
  | project_id :: rest =>
      match fetch_pages_loop fuel project_id 1 with
      | None => None
      | Some data =>
          match paged_fetch_data_for_projects fuel rest with
          | None => None
          | Some more => Some (data ++ more)%list
          end
      end
  end.

End Fetcher.


(** ** Vocabulary of the fetcher's properties *)

(** The attribute is named "handover date", in any letter case, and has a
    value that is not empty. *)
Definition handover_attribute (attr : RawAttribute) : bool :=
  (lower (match attr_name attr with Some n => n | None => "" end) =? "handover date")
  && negb (py_not (attr_value attr)).

(** The normalised records of one page of a project ([[]] for a failed request). *)
Definition page_records (api_system : string -> nat -> option (list RawRecord))
    (fromisoformat_utc : string -> option datetime)
    (utcnow : string -> nat -> nat -> datetime)
    (project_id : string) (page : nat) : list SystemRecord :=
  match api_system project_id page with
  | None => []
  | Some page_data =>
      process_equipment_data fromisoformat_utc (utcnow project_id page) page_data
  end.

(** A full page: the request succeeds with 500 records or more. *)
Definition full_page (api_system : string -> nat -> option (list RawRecord))
    (project_id : string) (page : nat) : Prop :=
  exists page_data, api_system project_id page = Some page_data /\ 500 <= length page_data.

(** Sample payloads. *)
Definition sample_fromisoformat_utc (s : string) : option datetime :=
  if s =? "2024-05-01T00:00:00+00:00" then Some 1714521600%Z else None.

Definition raw_chiller : RawRecord :=
  mkRawRecord (Some "own-id") (Some "P1") (Some "Chiller") None None None None None
    (Some "own checklist")
    [mkRawSystem (Some "S7"); mkRawSystem (Some "S9")]
    [mkRawAttribute (Some "Handover Date") (Some "");
     mkRawAttribute (Some "HANDOVER DATE") (Some "not a date");
     mkRawAttribute (Some "handover date") (Some "2024-05-01T00:00:00Z")]
    [mkRawChecklist (Some "C1") (Some "Pre-functional");
     mkRawChecklist (Some "C2") None].

Definition raw_anonymous : RawRecord :=
  mkRawRecord None (Some "P1") (Some "Pump") None None None None None None
    [mkRawSystem None] [] [].

(** An endpoint with one short page for project "P1" and a failure for every
    other request. *)
Definition sample_api (project_id : string) (page : nat) : option (list RawRecord) :=
  if (project_id =? "P1") && (page =? 1)%nat then Some [raw_chiller; raw_anonymous]
  else None.

Definition sample_utcnow (project_id : string) (page i : nat) : datetime := 1700000000%Z.


(** An endpoint that answers every request with the same full page. *)
Definition endless_api (project_id : string) (page : nat) : option (list RawRecord) :=
  Some (repeat raw_anonymous 500).

(** An environment without the API identifier. *)
Definition env_without_identifier : Environ :=
  mkEnviron None (Some "api-secret") (Some "sqlhost") (Some "cxalloy")
    (Some "sync") (Some "pw").


(** The first statement the body sends to the store for a record. *)
Definition first_statement (record : SystemRecord) : statement :=
  match system_id record with None => INSERT_main | Some _ => SELECT_main end.

(** The oracle [f] with entry [k] taken out: what it says of the records of a
    batch once record number [k] is removed. *)
Definition without_index {A} (k : nat) (f : nat -> A) : nat -> A :=
  fun j => if (j <? k)%nat then f j else f (S j).

(** * Properties *)

(** ** Equality of values and the change flag *)

Lemma py_eq_true_iff (a b : option string) : py_eq a b = true <-> a = b.
Proof.
  destruct a as [x|], b as [y|]; simpl; split; intro H;
    try discriminate; try reflexivity.
  - apply String.eqb_eq in H. now subst.
  - inversion H. apply String.eqb_refl.
Qed.

Lemma py_ne_false_iff (a b : option string) : py_ne a b = false <-> a = b.
Proof.
  unfold py_ne. rewrite negb_false_iff. apply py_eq_true_iff.
Qed.

Lemma py_ne_true_iff (a b : option string) : py_ne a b = true <-> a <> b.
Proof.
  unfold py_ne. rewrite negb_true_iff. split.
  - intros H E. apply py_eq_true_iff in E. congruence.
  - intro H. destruct (py_eq a b) eqn:E; [|reflexivity].
    apply py_eq_true_iff in E. contradiction.
Qed.

Lemma fold_compare_key_flag record existing_record keys b d :
  fst (fold_left (compare_key record existing_record) keys (b, d)) =
  b || existsb (differs record existing_record) keys.
Proof.
  revert b d. induction keys as [|key keys IH]; intros b d; simpl.
  - now rewrite orb_false_r.
  - unfold differs at 1.
    destruct (py_ne (record_get key record) (record_get key existing_record));
      rewrite IH; simpl; [now rewrite orb_true_r | reflexivity].
Qed.

Section Flag.
Variable isoformat : datetime -> string.

Lemma record_changed_existsb timestamp sid record existing_record :
  fst (compare_records isoformat timestamp sid record existing_record) =
  existsb (differs record existing_record) COMPARED_KEYS.
Proof.
  unfold compare_records.
  pose proof (fold_compare_key_flag record existing_record COMPARED_KEYS false
    [("timestamp", timestamp); ("action", "update"); ("system_id", sid)]) as H.
  destruct (fold_left _ _ _) as [b d]. simpl in *. exact H.
Qed.

Lemma same_compared_unchanged record existing_record :
  existsb (differs record existing_record) COMPARED_KEYS = false <->
  same_compared record existing_record.
Proof.
  unfold COMPARED_KEYS, same_compared, differs. cbn.
  repeat rewrite orb_false_iff. repeat rewrite py_ne_false_iff. tauto.
Qed.

Lemma record_changed_false timestamp sid record existing_record :
  same_compared record existing_record ->
  fst (compare_records isoformat timestamp sid record existing_record) = false.
Proof.
  intro H. rewrite record_changed_existsb. now apply same_compared_unchanged.
Qed.

Lemma record_changed_true timestamp sid record existing_record :
  ~ same_compared record existing_record ->
  fst (compare_records isoformat timestamp sid record existing_record) = true.
Proof.
  intro H. rewrite record_changed_existsb.
  destruct (existsb _ _) eqn:E; [reflexivity|].
  apply same_compared_unchanged in E. contradiction.
Qed.
End Flag.

(** ** What one turn of the loop does, case by case *)

Lemma where_system_id_iff sid row :
  where_system_id sid row = true <-> system_id row = Some sid.
Proof. unfold where_system_id. apply py_eq_true_iff. Qed.

Lemma select_fetchone_none sid t :
  select_fetchone sid t = None <->
  (forall row, In row (main_table t) -> system_id row <> Some sid).
Proof.
  unfold select_fetchone. split.
  - intros H row Hin E.
    apply (find_none _ _ H) in Hin. apply where_system_id_iff in E. congruence.
  - intro H. destruct (find _ _) as [row|] eqn:E; [|reflexivity].
    apply find_some in E as [Hin Hw]. apply where_system_id_iff in Hw.
    now apply H in Hin.
Qed.

Lemma insert_values_own record :
  insert_values (system_id record) record = record.
Proof. now destruct record. Qed.

Lemma set_columns_same_key record row :
  system_id row = system_id record -> set_columns record row = record.
Proof. destruct record, row; simpl; intro H; now subst. Qed.

Section Steps.
Variable isoformat : datetime -> string.
Variable raises : nat -> statement -> bool.
Variable now : nat -> string.


Lemma process_record_noop i record sid existing_record st :
  system_id record = Some sid ->
  select_fetchone sid (session (connection st)) = Some existing_record ->
  same_compared record existing_record ->
  process_record isoformat raises now i record st =
  (if raises i SELECT_main then None else Some tt, st).
Proof.
  intros Hid Hsel Hsame.
  unfold process_record. rewrite Hid.
  unfold bind, execute_select. destruct (raises i SELECT_main); [reflexivity|].
  rewrite Hsel.
  pose proof (record_changed_false isoformat (now i) sid _ _ Hsame) as Hflag.
  destruct (compare_records _ _ _ _) as [record_changed change_details].
  simpl in Hflag. subst record_changed. reflexivity.
Qed.

Lemma process_record_update i record sid existing_record st :
  system_id record = Some sid ->
  select_fetchone sid (session (connection st)) = Some existing_record ->
  ~ same_compared record existing_record ->
  raises i SELECT_main = false ->
  raises i INSERT_history = false ->
  raises i UPDATE_main = false ->
  process_record isoformat raises now i record st =
  (Some tt,
   mkState
     (mkConnection (committed (connection st))
        (update_main sid record
           (insert_history existing_record (session (connection st)))))
     (rows_added st) (S (rows_updated st)) (S (historical_count st))
     (changes_log st ++ [snd (compare_records isoformat (now i) sid record existing_record)])).
Proof.
  intros Hid Hsel Hdiff Hs Hh Hu.
  unfold process_record. rewrite Hid.
  unfold bind, execute_select. rewrite Hs, Hsel.
  pose proof (record_changed_true isoformat (now i) sid _ _ Hdiff) as Hflag.
  destruct (compare_records _ _ _ _) as [record_changed change_details].
  simpl in Hflag. subst record_changed.
  unfold execute. rewrite Hh. simpl. rewrite Hu. reflexivity.
Qed.

Lemma process_record_insert i record st :
  match system_id record with
  | None => True
  | Some sid =>
      raises i SELECT_main = false /\
      select_fetchone sid (session (connection st)) = None
  end ->
  raises i INSERT_main = false ->
  process_record isoformat raises now i record st =
  (Some tt,
   mkState
     (mkConnection (committed (connection st))
        (insert_main record (session (connection st))))
     (S (rows_added st)) (rows_updated st) (historical_count st)
     (changes_log st ++
      [insert_entry (now i)
         match system_id record with None => "None" | Some sid => sid end])).
Proof.
  intros Habsent Hi.
  unfold process_record.
  pose proof (insert_values_own record) as Hrow.
  destruct (system_id record) as [sid|].
  - destruct Habsent as [Hs Hsel].
    unfold bind, execute_select. rewrite Hs, Hsel.
    unfold execute. rewrite Hi, Hrow. reflexivity.
  - unfold bind, execute. rewrite Hi, Hrow. reflexivity.
Qed.

End Steps.

(** ** Shape of the log entries *)

Lemma insert_entry_action timestamp subject :
  dict_get "action" (insert_entry timestamp subject) = Some "insert".
Proof. reflexivity. Qed.

Lemma insert_entry_subject timestamp subject :
  dict_get "system_id" (insert_entry timestamp subject) = Some subject.
Proof. reflexivity. Qed.

Lemma insert_entry_blank timestamp subject col :
  In col CSV_COLUMNS ->
  col <> "timestamp" -> col <> "action" -> col <> "system_id" ->
  dict_get col (insert_entry timestamp subject) = Some "".
Proof.
  intros Hin Ht Ha Hs. unfold CSV_COLUMNS in Hin. simpl in Hin.
  repeat (destruct Hin as [Hin|Hin]; [subst col; try congruence; reflexivity|]).
  contradiction.
Qed.

(** ** Single-record classifications *)

(** C1. Change-trigger isolation: a fetched record with a non-null
    [system_id] whose persisted row (the row the lookup returns) agrees with it
    on the nine compared attributes is a no-op, whatever its [handover_date]
    and [timeUpdated] are and whichever statements would raise: the body of
    the loop leaves the whole loop state as it found it, that is both tables
    as the connection sees them, the three counters and the change log. *)
Theorem change_trigger_isolation isoformat raises now i record sid existing_record st :
  system_id record = Some sid ->
  select_fetchone sid (session (connection st)) = Some existing_record ->
  same_compared record existing_record ->
  snd (process_record isoformat raises now i record st) = st.
Proof.
  intros Hid Hsel Hsame.
  rewrite (process_record_noop isoformat raises now i record sid existing_record st Hid Hsel Hsame).
  reflexivity.
Qed.

Lemma change_trigger_isolation_witness :
  handover_date fetched_S1_A <> handover_date row_S1_A /\
  timeUpdated fetched_S1_A <> timeUpdated row_S1_A /\
  snd (process_record sample_isoformat never_raises sample_now 0 fetched_S1_A
         (initial_state (connect store_S1)))
  = initial_state (connect store_S1).
Proof.
  split; [discriminate|]. split; [discriminate|].
  apply (change_trigger_isolation sample_isoformat never_raises sample_now
           0 fetched_S1_A "S1" row_S1_A).
  - reflexivity.
  - reflexivity.
  - repeat split.
Defined.

(** C3. Update-with-archive: when some compared attribute of the fetched
    record differs from the persisted row and the statements of this record
    go through, the history table gains exactly one row, the persisted row as
    it was; the main table keeps its rows in place, those carrying this
    [system_id] rewritten by the [SET] clause, after which each of them equals
    the fetched record in all twelve columns; [historical_count] and
    [rows_updated] grow by one and [rows_added] stays. *)
Theorem update_with_archive isoformat raises now i record sid existing_record st :
  system_id record = Some sid ->
  select_fetchone sid (session (connection st)) = Some existing_record ->
  ~ same_compared record existing_record ->
  raises i SELECT_main = false ->
  raises i INSERT_history = false ->
  raises i UPDATE_main = false ->
  exists st',
    process_record isoformat raises now i record st = (Some tt, st') /\
    history_table (session (connection st')) =
      (history_table (session (connection st)) ++ [existing_record])%list /\
    main_table (session (connection st')) =
      map (update_row sid record) (main_table (session (connection st))) /\
    (forall row, In row (main_table (session (connection st'))) ->
       system_id row = Some sid -> row = record) /\
    historical_count st' = S (historical_count st) /\
    rows_updated st' = S (rows_updated st) /\
    rows_added st' = rows_added st.
Proof.
  intros Hid Hsel Hdiff Hs Hh Hu.
  eexists. split.
  - apply process_record_update; eassumption.
  - simpl. repeat split.
    intros row Hin Hrow. apply in_map_iff in Hin as [row0 [Hset Hin]].
    unfold update_row in Hset. destruct (where_system_id sid row0) eqn:W.
    + apply where_system_id_iff in W. subst row.
      apply set_columns_same_key. congruence.
    + subst row0. apply where_system_id_iff in Hrow. congruence.
Qed.

Lemma update_with_archive_witness :
  exists st',
    process_record sample_isoformat never_raises sample_now 0 fetched_S1_A2
      (initial_state (connect store_S1)) = (Some tt, st') /\
    history_table (session (connection st')) = [row_S1_A] /\
    main_table (session (connection st')) = [fetched_S1_A2] /\
    historical_count st' = 1 /\ rows_updated st' = 1 /\ rows_added st' = 0.
Proof.
  destruct (update_with_archive sample_isoformat never_raises sample_now
              0 fetched_S1_A2 "S1" row_S1_A (initial_state (connect store_S1)))
    as [st' [Hrun [Hhist [Hmain [_ [Hh [Hu Ha]]]]]]].
  - reflexivity.
  - reflexivity.
  - intros [_ [Hname _]]. discriminate Hname.
  - reflexivity.
  - reflexivity.
  - reflexivity.
  - exists st'. repeat split; assumption.
Defined.

(** C5. Insert-without-diff: a record whose [system_id] is null, or is carried
    by no row of the main table, is inserted once (the main table gains the
    record as its last row, the history table is untouched) and one entry is
    appended to the change log: action ["insert"], subject ["None"] for a
    null [system_id] and the [system_id] otherwise, every other column of the
    audit file blank; [rows_added] grows by one. *)
Theorem insert_without_diff isoformat raises now i record st :
  match system_id record with
  | None => True
  | Some sid =>
      forall row, In row (main_table (session (connection st))) ->
                  system_id row <> Some sid
  end ->
  raises i SELECT_main = false ->
  raises i INSERT_main = false ->
  exists st' entry,
    process_record isoformat raises now i record st = (Some tt, st') /\
    main_table (session (connection st')) =
      (main_table (session (connection st)) ++ [record])%list /\
    history_table (session (connection st')) = history_table (session (connection st)) /\
    changes_log st' = (changes_log st ++ [entry])%list /\
    dict_get "action" entry = Some "insert" /\
    dict_get "system_id" entry =
      Some match system_id record with None => "None" | Some sid => sid end /\
    (forall col, In col CSV_COLUMNS ->
       col <> "timestamp" -> col <> "action" -> col <> "system_id" ->
       dict_get col entry = Some "") /\
    rows_added st' = S (rows_added st) /\
    rows_updated st' = rows_updated st /\
    historical_count st' = historical_count st.
Proof.
  intros Habsent Hs Hi.
  eexists. eexists. split.
  - apply process_record_insert; [|exact Hi].
    destruct (system_id record) as [sid|]; [|exact I].
    split; [exact Hs|]. now apply select_fetchone_none.
  - simpl. repeat (split; [reflexivity|]).
    split; [apply insert_entry_blank|]. repeat split.
Qed.

Lemma insert_without_diff_witness :
  exists st' entry,
    process_record sample_isoformat never_raises sample_now 0 fetched_null_P1
      (initial_state (connect store_S1)) = (Some tt, st') /\
    main_table (session (connection st')) = [row_S1_A; fetched_null_P1] /\
    changes_log st' = [entry] /\
    dict_get "system_id" entry = Some "None" /\
    rows_added st' = 1.
Proof.
  destruct (insert_without_diff sample_isoformat never_raises sample_now
              0 fetched_null_P1 (initial_state (connect store_S1)))
    as [st' [entry [Hrun [Hmain [_ [Hlog [_ [Hsubj [_ [Ha _]]]]]]]]]].
  - exact I.
  - reflexivity.
  - reflexivity.
  - exists st', entry. repeat split; assumption.
Defined.

(** ** The entry of an update *)

Lemma fold_compare_key_dict record existing_record keys b d :
  snd (fold_left (compare_key record existing_record) keys (b, d)) =
  fold_left
    (fun d key =>
       dict_set ("new_" ++ key) (str_or_blank (record_get key record))
         (dict_set ("old_" ++ key) (str_or_blank (record_get key existing_record)) d))
    keys d.
Proof.
  revert b d. induction keys as [|key keys IH]; intros b d; simpl.
  - reflexivity.
  - destruct (py_ne _ _); apply IH.
Qed.

Lemma compare_records_entry isoformat timestamp sid record existing_record :
  snd (compare_records isoformat timestamp sid record existing_record) =
  dict_set "new_timeUpdated" (isoformat_or_blank isoformat (timeUpdated record))
    (dict_set "old_timeUpdated" (isoformat_or_blank isoformat (timeUpdated existing_record))
       (dict_set "new_handover_date" (isoformat_or_blank isoformat (handover_date record))
          (dict_set "old_handover_date"
             (isoformat_or_blank isoformat (handover_date existing_record))
             (fold_left
                (fun d key =>
                   dict_set ("new_" ++ key) (str_or_blank (record_get key record))
                     (dict_set ("old_" ++ key)
                        (str_or_blank (record_get key existing_record)) d))
                COMPARED_KEYS
                [("timestamp", timestamp); ("action", "update"); ("system_id", sid)])))).
Proof.
  unfold compare_records.
  rewrite <- (fold_compare_key_dict record existing_record COMPARED_KEYS false).
  destruct (fold_left _ _ _) as [b d]. reflexivity.
Qed.

Lemma compare_records_action isoformat timestamp sid record existing_record :
  dict_get "action" (snd (compare_records isoformat timestamp sid record existing_record))
  = Some "update".
Proof. rewrite compare_records_entry. reflexivity. Qed.

Lemma text_cell_str_or_blank (v : option string) :
  Some (str_or_blank v) = text_cell v.
Proof. now destruct v. Qed.

Lemma time_cell_isoformat_or_blank isoformat (v : option datetime) :
  Some (isoformat_or_blank isoformat v) = time_cell isoformat v.
Proof. now destruct v. Qed.

Lemma compare_records_update_entry isoformat timestamp sid record existing_record :
  system_id record = Some sid ->
  update_entry_of isoformat record existing_record
    (snd (compare_records isoformat timestamp sid record existing_record)).
Proof.
  intro Hid. rewrite compare_records_entry. unfold update_entry_of.
  split; [exists sid; split; [exact Hid | reflexivity]|].
  rewrite <- !text_cell_str_or_blank, <- !time_cell_isoformat_or_blank.
  repeat split.
Qed.

(** ** Every way the body can end *)

Lemma process_record_turn isoformat raises now i record st :
  turn isoformat (now i) record st
    (snd (process_record isoformat raises now i record st)).
Proof.
  unfold process_record.
  pose proof (insert_values_own record) as Hrow.
  destruct (system_id record) as [sid|] eqn:Hid.
  - unfold bind, execute_select.
    destruct (raises i SELECT_main); [apply turn_nothing|].
    destruct (select_fetchone sid (session (connection st))) as [existing_record|] eqn:Hsel.
    + pose proof (turn_updated isoformat (now i) record st sid existing_record Hid Hsel) as Hupd.
      destruct (compare_records isoformat (now i) sid record existing_record)
        as [record_changed change_details].
      destruct record_changed; [|apply turn_nothing].
      unfold execute. destruct (raises i INSERT_history); [apply turn_nothing|].
      simpl. destruct (raises i UPDATE_main).
      * apply (turn_archived isoformat (now i) record st sid existing_record Hid Hsel).
      * exact Hupd.
    + unfold execute. destruct (raises i INSERT_main); [apply turn_nothing|].
      rewrite Hrow. simpl.
      pose proof (turn_inserted isoformat (now i) record st) as Hins.
      unfold inserted, subject_of in Hins. rewrite Hid in Hins. exact Hins.
  - unfold bind, execute. destruct (raises i INSERT_main); [apply turn_nothing|].
    rewrite Hrow. simpl.
    pose proof (turn_inserted isoformat (now i) record st) as Hins.
    unfold inserted, subject_of in Hins. rewrite Hid in Hins. exact Hins.
Qed.

(** An invariant of the loop state that every turn and every commit keep
    holds of the state [upsert_data] ends in. *)
Lemma upsert_loop_invariant isoformat raises now (data0 : list SystemRecord)
    (P : LoopState -> Prop) :
  (forall st, P st -> P (commit st)) ->
  (forall timestamp record st st',
     In record data0 -> P st -> turn isoformat timestamp record st st' -> P st') ->
  forall data i st,
    incl data data0 -> P st ->
    P (final (upsert_loop isoformat raises now i data st)).
Proof.
  intros Hcommit Hturn. induction data as [|record rest IH]; intros i st Hincl HP.
  - exact HP.
  - simpl.
    assert (Hin : In record data0) by (apply Hincl; now left).
    assert (Hrest : incl rest data0) by (intros x Hx; apply Hincl; now right).
    pose proof (process_record_turn isoformat raises now i record st) as Ht.
    destruct (process_record isoformat raises now i record st) as [[[]|] st'];
      simpl in Ht; pose proof (Hturn _ _ _ _ Hin HP Ht) as HP'.
    + destruct (raises i COMMIT); [exact HP'|].
      apply IH; [exact Hrest | now apply Hcommit].
    + now apply IH.
Qed.

(** ** Counters and log *)

Lemma count_action_app a log entry :
  count_action a (log ++ [entry]) =
  count_action a log + (if has_action a entry then 1 else 0).
Proof.
  unfold count_action. rewrite filter_app, length_app. simpl.
  destruct (has_action a entry); reflexivity.
Qed.

Lemma has_action_insert_entry timestamp subject :
  has_action "insert" (insert_entry timestamp subject) = true /\
  has_action "update" (insert_entry timestamp subject) = false.
Proof. split; reflexivity. Qed.

Lemma has_action_update_entry isoformat timestamp sid record existing_record :
  let entry := snd (compare_records isoformat timestamp sid record existing_record) in
  has_action "insert" entry = false /\ has_action "update" entry = true.
Proof.
  simpl. unfold has_action. rewrite compare_records_action. split; reflexivity.
Qed.

Lemma turn_counts_match_log isoformat timestamp record st st' :
  counts_match_log st ->
  turn isoformat timestamp record st st' ->
  counts_match_log st'.
Proof.
  intros [Ha Hu] Ht. unfold counts_match_log.
  destruct Ht as [| |sid existing_record Hid Hsel|sid existing_record Hid Hsel]; simpl.
  - now split.
  - rewrite !count_action_app.
    destruct (has_action_insert_entry timestamp (subject_of record)) as [-> ->].
    lia.
  - now split.
  - rewrite !count_action_app.
    destruct (has_action_update_entry isoformat timestamp sid record existing_record)
      as [-> ->].
    lia.
Qed.

(** C9. Counts-log correspondence: in the state every run of [upsert_data]
    ends in, whether it returned or a commit raised, and whichever statements
    raised on the way, [rows_added] is the number of log entries with action
    ["insert"] and [rows_updated] the number with action ["update"]. *)
Theorem counts_log_correspondence isoformat raises now conn data :
  let st := final (upsert_data isoformat raises now conn data) in
  rows_added st = count_action "insert" (changes_log st) /\
  rows_updated st = count_action "update" (changes_log st).
Proof.
  apply (upsert_loop_invariant isoformat raises now data counts_match_log).
  - intros st H. exact H.
  - intros timestamp record st st' _ H Ht.
    exact (turn_counts_match_log isoformat timestamp record st st' H Ht).
  - apply incl_refl.
  - split; reflexivity.
Qed.

(** The history table only grows during a turn. *)
Lemma turn_history_grows isoformat timestamp record st st' row :
  turn isoformat timestamp record st st' ->
  In row (history_table (session (connection st))) ->
  In row (history_table (session (connection st'))).
Proof.
  intros Ht Hin.
  destruct Ht as [| |sid existing_record Hid Hsel|sid existing_record Hid Hsel];
    simpl; try assumption; apply in_or_app; now left.
Qed.

Lemma turn_update_entries_complete isoformat data timestamp record st st' :
  In record data ->
  update_entries_complete isoformat data st ->
  turn isoformat timestamp record st st' ->
  update_entries_complete isoformat data st'.
Proof.
  intros Hrec Hinv Ht entry Hin Hact.
  assert (Hold : In entry (changes_log st) ->
                 exists record0 existing_record,
                   In record0 data /\
                   In existing_record (history_table (session (connection st'))) /\
                   update_entry_of isoformat record0 existing_record entry).
  { intro Hin0. destruct (Hinv entry Hin0 Hact) as [r [e [Hr [He Hu]]]].
    exists r, e. split; [exact Hr|]. split; [|exact Hu].
    exact (turn_history_grows isoformat timestamp record st st' e Ht He). }
  destruct Ht as [| |sid existing_record Hid Hsel|sid existing_record Hid Hsel];
    simpl in Hin; try (now apply Hold).
  - apply in_app_or in Hin as [Hin|[Hin|[]]]; [now apply Hold|].
    subst entry. rewrite insert_entry_action in Hact. discriminate.
  - apply in_app_or in Hin as [Hin|[Hin|[]]]; [now apply Hold|].
    subst entry. exists record, existing_record.
    split; [exact Hrec|]. split.
    + simpl. apply in_or_app. right. now left.
    + now apply compare_records_update_entry.
Qed.

(** C6. Update log completeness: every entry with action ["update"] in the
    log of a run carries the [system_id] of a record of the batch as subject
    and, for all eleven tracked fields (the nine compared attributes,
    [timeUpdated] and [handover_date]), under the ["old_"] column of the
    field the value the archived row had in that field and under its
    ["new_"] column the value of that record: a text value as it is, a
    timestamp in ISO format, null as the empty string, whether or not the
    field changed. *)
Theorem update_log_completeness isoformat raises now conn data entry :
  In entry (changes_log (final (upsert_data isoformat raises now conn data))) ->
  dict_get "action" entry = Some "update" ->
  exists record existing_record,
    In record data /\
    In existing_record
      (history_table (session (connection
         (final (upsert_data isoformat raises now conn data))))) /\
    update_entry_of isoformat record existing_record entry.
Proof.
  revert entry.
  apply (upsert_loop_invariant isoformat raises now data
           (update_entries_complete isoformat data)).
  - intros st H. exact H.
  - intros timestamp record st st' Hin H Ht.
    exact (turn_update_entries_complete isoformat data timestamp record st st' Hin H Ht).
  - apply incl_refl.
  - intros entry [].
Qed.

Lemma update_log_completeness_witness :
  let entry :=
    snd (compare_records sample_isoformat (sample_now 0) "S1" fetched_S1_A2 row_S1_A) in
  dict_get "system_id" entry = Some "S1" /\
  dict_get "old_name" entry = Some "A" /\
  dict_get "new_name" entry = Some "A2" /\
  dict_get "old_building" entry = Some "B1" /\
  dict_get "new_building" entry = Some "B1" /\
  dict_get "old_description" entry = Some "" /\
  dict_get "old_timeUpdated" entry = Some "" /\
  dict_get "new_timeUpdated" entry = Some "2025-01-01T00:00:00".
Proof.
  cbv zeta.
  destruct (update_log_completeness sample_isoformat never_raises sample_now
              (connect store_S1) [fetched_S1_A2]
              (snd (compare_records sample_isoformat (sample_now 0) "S1"
                      fetched_S1_A2 row_S1_A)))
    as [record [existing_record [Hrecord [Harchived Hentry]]]].
  - left. reflexivity.
  - reflexivity.
  - destruct Hrecord as [<-|[]].
    vm_compute in Harchived. destruct Harchived as [<-|[]].
    destruct Hentry as [[sid [Hsid Hsubject]] Hcells].
    injection Hsid as <-.
    split; [exact Hsubject|].
    decompose [and] Hcells.
    repeat split; assumption.
Defined.

(** ** The two scenarios of the specification *)

Example scenario_changed_name :
  let st := final (upsert_data sample_isoformat never_raises sample_now
                     (connect store_S1) [fetched_S1_A2]) in
  main_table (committed (connection st)) = [fetched_S1_A2] /\
  history_table (committed (connection st)) = [row_S1_A] /\
  returned_counts st = (1, 0, 1) /\
  exists entry,
    changes_log st = [entry] /\
    dict_get "action" entry = Some "update" /\
    dict_get "old_name" entry = Some "A" /\
    dict_get "new_name" entry = Some "A2".
Proof.
  repeat (split; [reflexivity|]). eexists. repeat split.
Qed.

Example scenario_no_identifier :
  let st := final (upsert_data sample_isoformat never_raises sample_now
                     (connect empty_store) [fetched_null_P1]) in
  main_table (committed (connection st)) = [fetched_null_P1] /\
  returned_counts st = (0, 1, 0) /\
  exists entry,
    changes_log st = [entry] /\
    dict_get "action" entry = Some "insert" /\
    dict_get "system_id" entry = Some "None".
Proof.
  repeat (split; [reflexivity|]). eexists. repeat split.
Qed.

(** ** Idempotence *)

Lemma commit_clean st :
  session (connection st) = committed (connection st) -> commit st = st.
Proof.
  destruct st as [[c s] a u h l]. simpl. intro H. now subst.
Qed.

Lemma upsert_loop_all_noop isoformat raises now data :
  forall i st,
    session (connection st) = committed (connection st) ->
    (forall record, In record data ->
       exists sid existing_record,
         system_id record = Some sid /\
         select_fetchone sid (session (connection st)) = Some existing_record /\
         same_compared record existing_record) ->
    final (upsert_loop isoformat raises now i data st) = st.
Proof.
  induction data as [|record rest IH]; intros i st Hclean Hall.
  - reflexivity.
  - simpl.
    destruct (Hall record (or_introl eq_refl)) as [sid [existing_record [Hid [Hsel Hsame]]]].
    rewrite (process_record_noop isoformat raises now i record sid existing_record st
               Hid Hsel Hsame).
    assert (Hrest : forall r, In r rest ->
              exists sid0 e, system_id r = Some sid0 /\
                select_fetchone sid0 (session (connection st)) = Some e /\
                same_compared r e)
      by (intros r Hr; apply Hall; now right).
    destruct (raises i SELECT_main).
    + now apply IH.
    + destruct (raises i COMMIT); [reflexivity|].
      rewrite (commit_clean st Hclean). now apply IH.
Qed.

Lemma find_keyed sid row rows :
  NoDup (map system_id rows) ->
  In row rows -> system_id row = Some sid ->
  find (where_system_id sid) rows = Some row.
Proof.
  induction rows as [|row0 rows IH]; intros Hnd Hin Hrow; [contradiction|].
  simpl in *. inversion Hnd as [|? ? Hnotin Hnd']; subst.
  destruct (where_system_id sid row0) eqn:W.
  - apply where_system_id_iff in W. destruct Hin as [->|Hin]; [reflexivity|].
    exfalso. apply Hnotin. rewrite W, <- Hrow. now apply in_map.
  - destruct Hin as [->|Hin].
    + apply where_system_id_iff in Hrow. congruence.
    + now apply IH.
Qed.

(** C2, as the code has it. Idempotence on a keyed store: when every row of
    the main table has a non-null [system_id] and no two rows share one,
    reconciling any batch whose records are rows of the store as far as
    [system_id] and the nine compared attributes go (the store's own rows in
    particular) adds, updates and archives nothing and logs nothing, and both
    tables stay as they were; this holds whichever statements raise. *)
Theorem idempotence_keyed_store isoformat raises now db data :
  keyed (main_table db) ->
  (forall record, In record data -> drawn_from (main_table db) record) ->
  let st := final (upsert_data isoformat raises now (connect db) data) in
  rows_added st = 0 /\ rows_updated st = 0 /\ historical_count st = 0 /\
  changes_log st = [] /\
  session (connection st) = db /\ committed (connection st) = db.
Proof.
  intros [Hnonnull Hnodup] Hdrawn. simpl. unfold upsert_data.
  rewrite upsert_loop_all_noop.
  - repeat split.
  - reflexivity.
  - intros record Hin. destruct (Hdrawn record Hin) as [row [Hrow [Hid Hsame]]].
    destruct (system_id row) as [sid|] eqn:Hsid.
    + exists sid, row. split; [exact Hid|]. split; [|exact Hsame].
      simpl. unfold select_fetchone. now apply find_keyed.
    + exfalso. now apply (Hnonnull row Hrow).
Qed.

Lemma idempotence_keyed_store_witness :
  let st := final (upsert_data sample_isoformat never_raises sample_now
                     (connect store_S1) [fetched_S1_A]) in
  rows_added st = 0 /\ rows_updated st = 0 /\ historical_count st = 0 /\
  changes_log st = [] /\
  session (connection st) = store_S1 /\ committed (connection st) = store_S1.
Proof.
  apply (idempotence_keyed_store sample_isoformat never_raises sample_now
           store_S1 [fetched_S1_A]).
  - split.
    + intros row [<-|[]]. discriminate.
    + repeat constructor. intros [].
  - intros record [<-|[]]. exists row_S1_A.
    split; [now left|]. split; [reflexivity|repeat split].
Defined.

(** C2 as stated fails: a store holding a row without [system_id], reconciled
    against its own rows, inserts that row again. *)
Lemma idempotence_counterexample :
  ~ (forall db : Tables,
       let st := final (upsert_data sample_isoformat never_raises sample_now
                          (connect db) (main_table db)) in
       rows_added st = 0 /\ rows_updated st = 0 /\ historical_count st = 0 /\
       changes_log st = []).
Proof.
  intro H. destruct (H (mkTables [fetched_null_P1] [])) as [Hadded _].
  vm_compute in Hadded. discriminate Hadded.
Qed.

(** ** Failures *)

(** X24. A record whose body raises before its [UPDATE] leaves no trace: the
    tables as the connection sees them, the counters and the log are as
    before. *)
Lemma raise_before_update_leaves_state isoformat raises now i record st :
  fst (process_record isoformat raises now i record st) = None ->
  raises i UPDATE_main = false ->
  snd (process_record isoformat raises now i record st) = st.
Proof.
  unfold process_record, bind, execute, execute_select. intros Hraised Hu.
  destruct (system_id record) as [sid|].
  - destruct (raises i SELECT_main); [reflexivity|].
    destruct (select_fetchone sid (session (connection st))) as [existing_record|].
    + destruct (compare_records isoformat (now i) sid record existing_record)
        as [[] change_details]; [|discriminate Hraised].
      destruct (raises i INSERT_history); [reflexivity|].
      simpl in Hraised. rewrite Hu in Hraised. discriminate Hraised.
    + destruct (raises i INSERT_main); [reflexivity | discriminate Hraised].
  - destruct (raises i INSERT_main); [reflexivity | discriminate Hraised].
Qed.

(** C4 at its failing input. The store holds S1; the batch brings a changed S1
    and a new S2; the [UPDATE] of the first record raises. The record is
    skipped and S2 is inserted and committed, but the failed record has been
    counted as archived, and its history row is committed with S2 while the
    main row of S1 still holds the old values. *)
Theorem partial_failure_counts_archive :
  let o := upsert_data sample_isoformat (raises_at 0 UPDATE_main) sample_now
             (connect store_S1) [fetched_S1_A2; fetched_S2] in
  exists st,
    o = Returned st /\
    rows_added st = 1 /\ rows_updated st = 0 /\ historical_count st = 1 /\
    main_table (committed (connection st)) = [row_S1_A; fetched_S2] /\
    history_table (committed (connection st)) = [row_S1_A].
Proof.
  eexists. split; [vm_compute; reflexivity|]. repeat split.
Qed.

(** ** Order of the batch *)

Lemma find_hd_filter {A} (p : A -> bool) (l : list A) :
  find p l = hd_error (filter p l).
Proof.
  induction l as [|x l IH]; simpl; [reflexivity|].
  destruct (p x); [reflexivity | exact IH].
Qed.

Lemma filter_map_stable {A} (p : A -> bool) (f : A -> A) (l : list A) :
  (forall x, p (f x) = p x) ->
  filter p (map f l) = map f (filter p l).
Proof.
  intro H. induction l as [|x l IH]; simpl; [reflexivity|].
  rewrite H. destruct (p x); simpl; now rewrite IH.
Qed.

Lemma map_fixed {A} (f : A -> A) (l : list A) :
  (forall x, In x l -> f x = x) -> map f l = l.
Proof.
  induction l as [|x l IH]; simpl; intro H; [reflexivity|].
  rewrite H by now left. rewrite IH; [reflexivity|]. intros y Hy. apply H. now right.
Qed.

Lemma update_row_system_id sid record row :
  system_id (update_row sid record row) = system_id row.
Proof. unfold update_row. now destruct (where_system_id sid row). Qed.

Lemma where_update_row sid sid' record row :
  where_system_id sid' (update_row sid record row) = where_system_id sid' row.
Proof. unfold where_system_id. now rewrite update_row_system_id. Qed.

Lemma update_row_other sid record row :
  system_id row <> Some sid -> update_row sid record row = row.
Proof.
  intro H. unfold update_row. destruct (where_system_id sid row) eqn:W; [|reflexivity].
  apply where_system_id_iff in W. contradiction.
Qed.

Lemma update_row_commute sid1 sid2 record1 record2 row :
  sid1 <> sid2 ->
  update_row sid2 record2 (update_row sid1 record1 row) =
  update_row sid1 record1 (update_row sid2 record2 row).
Proof.
  intro Hne. unfold update_row at 2 4.
  destruct (where_system_id sid1 row) eqn:W1, (where_system_id sid2 row) eqn:W2.
  - apply where_system_id_iff in W1, W2. congruence.
  - apply where_system_id_iff in W1.
    rewrite (update_row_other sid2 record2 (set_columns record1 row)).
    + unfold update_row. apply where_system_id_iff in W1. now rewrite W1.
    + simpl. intro E. congruence.
  - apply where_system_id_iff in W2.
    rewrite (update_row_other sid1 record1 (set_columns record2 row)).
    + unfold update_row. apply where_system_id_iff in W2. now rewrite W2.
    + simpl. intro E. congruence.
  - unfold update_row. now rewrite W1, W2.
Qed.

Lemma filter_where_update_other sid sid' record rows :
  sid <> sid' ->
  filter (where_system_id sid') (map (update_row sid record) rows) =
  filter (where_system_id sid') rows.
Proof.
  intro Hne. rewrite filter_map_stable by (intro; apply where_update_row).
  apply map_fixed. intros row Hin. apply filter_In in Hin as [_ W].
  apply where_system_id_iff in W. apply update_row_other. congruence.
Qed.

Lemma filter_where_single sid row :
  filter (where_system_id sid) [row] =
  if where_system_id sid row then [row] else [].
Proof. reflexivity. Qed.

Section NoFailure.
Variable isoformat : datetime -> string.
Variable raises : nat -> statement -> bool.
Variable now : nat -> string.
Hypothesis never : forall i s, raises i s = false.

(** Without failures the body classifies and completes. *)
Lemma process_record_never i record st :
  process_record isoformat raises now i record st =
  (Some tt,
   match system_id record with
   | None => inserted (now i) record st
   | Some sid =>
       match select_fetchone sid (session (connection st)) with
       | None => inserted (now i) record st
       | Some existing_record =>
           if existsb (differs record existing_record) COMPARED_KEYS
           then updated sid record
                  (snd (compare_records isoformat (now i) sid record existing_record))
                  (archived existing_record st)
           else st
       end
   end).
Proof.
  destruct (system_id record) as [sid|] eqn:Hid.
  - destruct (select_fetchone sid (session (connection st))) as [e|] eqn:Hsel.
    + destruct (existsb (differs record e) COMPARED_KEYS) eqn:Hflag.
      * rewrite (process_record_update isoformat raises now i record sid e st);
          try apply never; try assumption; [reflexivity|].
        intro Hsame. apply same_compared_unchanged in Hsame. congruence.
      * rewrite (process_record_noop isoformat raises now i record sid e st Hid Hsel).
        -- now rewrite never.
        -- now apply same_compared_unchanged.
    + rewrite process_record_insert.
      * unfold inserted, subject_of. now rewrite Hid.
      * rewrite Hid. split; [apply never | exact Hsel].
      * apply never.
  - rewrite process_record_insert.
    + unfold inserted, subject_of. now rewrite Hid.
    + now rewrite Hid.
    + apply never.
Qed.

Lemma upsert_loop_never_cons i record rest st :
  upsert_loop isoformat raises now i (record :: rest) st =
  upsert_loop isoformat raises now (S i) rest
    (commit (snd (process_record isoformat raises now i record st))).
Proof.
  simpl. rewrite process_record_never, never. reflexivity.
Qed.

End NoFailure.

Ltac split_same_store :=
  unfold same_store; split; [|split; [|split; [|repeat split; simpl; try congruence]]].

Lemma same_store_refl st : same_store st st.
Proof. split_same_store; reflexivity. Qed.

Lemma same_store_trans st1 st2 st3 :
  same_store st1 st2 -> same_store st2 st3 -> same_store st1 st3.
Proof.
  intros [M1 [F1 [H1 [A1 [U1 C1]]]]] [M2 [F2 [H2 [A2 [U2 C2]]]]].
  split_same_store.
  - now transitivity (main_table (session (connection st2))).
  - intro sid. now rewrite F1.
  - now transitivity (history_table (session (connection st2))).
Qed.

Lemma same_store_select st1 st2 sid :
  same_store st1 st2 ->
  select_fetchone sid (session (connection st1)) =
  select_fetchone sid (session (connection st2)).
Proof.
  intros [_ [F _]]. unfold select_fetchone. rewrite !find_hd_filter. now rewrite F.
Qed.

Lemma same_store_commit st1 st2 :
  same_store st1 st2 -> same_store (commit st1) (commit st2).
Proof. intro H. exact H. Qed.

Lemma same_store_inserted timestamp1 timestamp2 record st1 st2 :
  same_store st1 st2 ->
  same_store (inserted timestamp1 record st1) (inserted timestamp2 record st2).
Proof.
  intros [M [F [H [A [U C]]]]]. split_same_store; simpl.
  - now apply Permutation_app_tail.
  - intro sid. rewrite !filter_app. now rewrite F.
  - exact H.
Qed.

Lemma same_store_updated sid record entry1 entry2 existing_record st1 st2 :
  same_store st1 st2 ->
  same_store (updated sid record entry1 (archived existing_record st1))
             (updated sid record entry2 (archived existing_record st2)).
Proof.
  intros [M [F [H [A [U C]]]]]. split_same_store; simpl.
  - now apply Permutation_map.
  - intro sid'.
    rewrite !filter_map_stable by (intro; apply where_update_row). now rewrite F.
  - now apply Permutation_app_tail.
Qed.

Lemma update_main_commute sid1 sid2 record1 record2 (rows : list SystemRecord) :
  sid1 <> sid2 ->
  map (update_row sid2 record2) (map (update_row sid1 record1) rows) =
  map (update_row sid1 record1) (map (update_row sid2 record2) rows).
Proof.
  intro Hne. rewrite !map_map. apply map_ext. intro row.
  now apply update_row_commute.
Qed.

Lemma update_main_after_insert sid record row (rows : list SystemRecord) :
  system_id row <> Some sid ->
  map (update_row sid record) (rows ++ [row]) =
  (map (update_row sid record) rows ++ [row])%list.
Proof.
  intro Hne. rewrite map_app. simpl. now rewrite update_row_other.
Qed.

Lemma insert_main_commute (a b : SystemRecord) (rows : list SystemRecord) :
  Permutation ((rows ++ [a]) ++ [b]) ((rows ++ [b]) ++ [a]).
Proof.
  rewrite <- !app_assoc. apply Permutation_app_head. simpl. apply perm_swap.
Qed.

Lemma insert_main_commute_rows sid (a b : SystemRecord) (rows : list SystemRecord) :
  (system_id a = Some sid -> system_id b = Some sid -> False) ->
  filter (where_system_id sid) ((rows ++ [a]) ++ [b]) =
  filter (where_system_id sid) ((rows ++ [b]) ++ [a]).
Proof.
  intro Hne. rewrite <- !app_assoc, !filter_app. f_equal. simpl.
  destruct (where_system_id sid a) eqn:Wa, (where_system_id sid b) eqn:Wb;
    try reflexivity.
  apply where_system_id_iff in Wa, Wb. now destruct Hne.
Qed.

Section OrderIndependence.
Variable isoformat : datetime -> string.
Variable raises : nat -> statement -> bool.
Variable now : nat -> string.
Hypothesis never : forall i s, raises i s = false.

(** One turn of the failure-free loop. *)
Let turn_of (i : nat) (record : SystemRecord) (st : LoopState) : LoopState :=
  commit (snd (process_record isoformat raises now i record st)).

Lemma turn_of_same_store i1 i2 record st1 st2 :
  same_store st1 st2 ->
  same_store (turn_of i1 record st1) (turn_of i2 record st2).
Proof.
  intro HR. unfold turn_of. apply same_store_commit.
  rewrite !(process_record_never isoformat raises now never). cbn [snd].
  destruct (system_id record) as [sid|]; [|now apply same_store_inserted].
  rewrite (same_store_select st1 st2 sid HR).
  destruct (select_fetchone sid (session (connection st2))) as [e|];
    [|now apply same_store_inserted].
  destruct (existsb (differs record e) COMPARED_KEYS);
    [now apply same_store_updated | exact HR].
Qed.

(** A turn leaves the rows of every other [system_id] alone. *)
Lemma turn_of_other_rows i record st sid :
  system_id record <> Some sid ->
  filter (where_system_id sid) (main_table (session (connection (turn_of i record st)))) =
  filter (where_system_id sid) (main_table (session (connection st))).
Proof.
  intro Hne. unfold turn_of.
  rewrite (process_record_never isoformat raises now never). cbn [snd].
  change (session (connection (commit ?x))) with (session (connection x)).
  assert (Hins : filter (where_system_id sid)
                   (main_table (session (connection (inserted (now i) record st)))) =
                 filter (where_system_id sid) (main_table (session (connection st)))).
  { simpl. rewrite filter_app, filter_where_single.
    destruct (where_system_id sid record) eqn:W.
    - apply where_system_id_iff in W. contradiction.
    - apply app_nil_r. }
  destruct (system_id record) as [sid0|]; [|exact Hins].
  destruct (select_fetchone sid0 (session (connection st))) as [e|]; [|exact Hins].
  destruct (existsb (differs record e) COMPARED_KEYS); [|reflexivity].
  simpl. apply filter_where_update_other. congruence.
Qed.

Lemma turn_of_other_select i record st sid :
  system_id record <> Some sid ->
  select_fetchone sid (session (connection (turn_of i record st))) =
  select_fetchone sid (session (connection st)).
Proof.
  intro Hne. unfold select_fetchone. rewrite !find_hd_filter.
  now rewrite turn_of_other_rows.
Qed.

Lemma turn_of_eq i record st :
  turn_of i record st =
  commit
    match system_id record with
    | None => inserted (now i) record st
    | Some sid =>
        match select_fetchone sid (session (connection st)) with
        | None => inserted (now i) record st
        | Some existing_record =>
            if existsb (differs record existing_record) COMPARED_KEYS
            then updated sid record
                   (snd (compare_records isoformat (now i) sid record existing_record))
                   (archived existing_record st)
            else st
        end
    end.
Proof.
  unfold turn_of. now rewrite (process_record_never isoformat raises now never).
Qed.

(** Two records that do not share a [system_id] can be taken in either order. *)
Lemma turn_of_swap i1 i2 j1 j2 record1 record2 st :
  (forall sid, system_id record1 = Some sid -> system_id record2 <> Some sid) ->
  same_store (turn_of i2 record2 (turn_of i1 record1 st))
             (turn_of j1 record1 (turn_of j2 record2 st)).
Proof.
  intro Hind.
  assert (Hsel2 : forall sid, system_id record2 = Some sid ->
            select_fetchone sid (session (connection (turn_of i1 record1 st))) =
            select_fetchone sid (session (connection st))).
  { intros sid H. apply turn_of_other_select. intro E. exact (Hind sid E H). }
  assert (Hsel1 : forall sid, system_id record1 = Some sid ->
            select_fetchone sid (session (connection (turn_of j2 record2 st))) =
            select_fetchone sid (session (connection st))).
  { intros sid H. apply turn_of_other_select. intro E. exact (Hind sid H E). }
  rewrite (turn_of_eq i2 record2 (turn_of i1 record1 st)).
  rewrite (turn_of_eq j1 record1 (turn_of j2 record2 st)).
  destruct (system_id record1) as [sid1|] eqn:E1;
    destruct (system_id record2) as [sid2|] eqn:E2;
    try rewrite (Hsel2 sid2 eq_refl); try rewrite (Hsel1 sid1 eq_refl);
    rewrite (turn_of_eq i1 record1 st), (turn_of_eq j2 record2 st), ?E1, ?E2;
    clear Hsel1 Hsel2.
  all: repeat match goal with
       | |- context [select_fetchone ?sid ?t] =>
           let e := fresh "e" in destruct (select_fetchone sid t) as [e|]
       | |- context [existsb (differs ?r ?e) COMPARED_KEYS] =>
           destruct (existsb (differs r e) COMPARED_KEYS)
       end.
  all: try specialize (Hind _ eq_refl).
  all: split_same_store; simpl; try intro sid; try reflexivity.
  all: try (rewrite (update_main_commute sid1 sid2) by congruence; reflexivity).
  all: try (rewrite !update_main_after_insert by congruence; reflexivity).
  all: try apply insert_main_commute.
  all: apply insert_main_commute_rows; congruence.
Qed.

Lemma upsert_loop_same_store data :
  forall i i' st st',
    same_store st st' ->
    same_store (final (upsert_loop isoformat raises now i data st))
               (final (upsert_loop isoformat raises now i' data st')).
Proof.
  induction data as [|record rest IH]; intros i i' st st' HR; [exact HR|].
  rewrite !(upsert_loop_never_cons isoformat raises now never).
  apply IH. now apply turn_of_same_store.
Qed.

Lemma batch_ids_cons record rest :
  batch_ids (record :: rest) =
  (match system_id record with Some sid => [sid] | None => [] end ++ batch_ids rest)%list.
Proof. reflexivity. Qed.

Lemma batch_ids_permutation data data' :
  Permutation data data' -> Permutation (batch_ids data) (batch_ids data').
Proof. intro H. unfold batch_ids. now apply Permutation_flat_map. Qed.

Lemma upsert_loop_permutation data data' :
  Permutation data data' ->
  NoDup (batch_ids data) ->
  forall i i' st st',
    same_store st st' ->
    same_store (final (upsert_loop isoformat raises now i data st))
               (final (upsert_loop isoformat raises now i' data' st')).
Proof.
  induction 1 as [|x l l' Hperm IH|x y l|l l' l'' Hp1 IH1 Hp2 IH2];
    intros Hnd i i' st st' HR.
  - exact HR.
  - rewrite !(upsert_loop_never_cons isoformat raises now never).
    apply IH.
    + rewrite batch_ids_cons in Hnd. now apply NoDup_app_remove_l in Hnd.
    + now apply turn_of_same_store.
  - rewrite !(upsert_loop_never_cons isoformat raises now never).
    apply upsert_loop_same_store.
    apply (same_store_trans _ (turn_of (S i') y (turn_of i' x st))).
    + apply (turn_of_swap i (S i) (S i') i' y x st).
      intros sid Hy Hx. rewrite !batch_ids_cons, Hy, Hx in Hnd.
      simpl in Hnd. inversion Hnd as [|? ? Hnotin _]. apply Hnotin. now left.
    + apply turn_of_same_store. now apply turn_of_same_store.
  - apply (same_store_trans _ (final (upsert_loop isoformat raises now i l' st))).
    + apply IH1; [exact Hnd | apply same_store_refl].
    + apply IH2; [|exact HR].
      apply (Permutation_NoDup (batch_ids_permutation l l' Hp1) Hnd).
Qed.

Lemma upsert_loop_committed data :
  forall i st,
    committed (connection st) = session (connection st) ->
    committed (connection (final (upsert_loop isoformat raises now i data st))) =
    session (connection (final (upsert_loop isoformat raises now i data st))).
Proof.
  induction data as [|record rest IH]; intros i st Hclean; [exact Hclean|].
  rewrite (upsert_loop_never_cons isoformat raises now never).
  now apply IH.
Qed.

End OrderIndependence.

(** C7, as the code has it. Order-independence for batches without duplicate
    identifiers: when no two records of the batch carry the same non-null
    [system_id] and no statement raises, reconciling the batch and
    reconciling any permutation of it against the same store commit the same
    rows to the main table and to the history table, up to the order of the
    rows (their [IDX]), and return the same three counts. *)
Theorem order_independence_distinct_ids isoformat raises now db data data' :
  (forall i s, raises i s = false) ->
  NoDup (batch_ids data) ->
  Permutation data data' ->
  let st := final (upsert_data isoformat raises now (connect db) data) in
  let st' := final (upsert_data isoformat raises now (connect db) data') in
  Permutation (main_table (committed (connection st)))
              (main_table (committed (connection st'))) /\
  Permutation (history_table (committed (connection st)))
              (history_table (committed (connection st'))) /\
  returned_counts st = returned_counts st'.
Proof.
  intros never Hnd Hperm. simpl. unfold upsert_data.
  rewrite !(upsert_loop_committed isoformat raises now never) by reflexivity.
  destruct (upsert_loop_permutation isoformat raises now never data data' Hperm Hnd
              0 0 (initial_state (connect db)) (initial_state (connect db))
              (same_store_refl _))
    as [HM [_ [HH [HA [HU HC]]]]].
  split; [exact HM|]. split; [exact HH|].
  unfold returned_counts. now rewrite HA, HU, HC.
Qed.

Lemma order_independence_distinct_ids_witness :
  let st := final (upsert_data sample_isoformat never_raises sample_now (connect store_S1)
                     [fetched_S1_A2; fetched_null_P1; fetched_S2]) in
  let st' := final (upsert_data sample_isoformat never_raises sample_now (connect store_S1)
                      [fetched_S2; fetched_S1_A2; fetched_null_P1]) in
  Permutation (main_table (committed (connection st)))
              (main_table (committed (connection st'))) /\
  Permutation (history_table (committed (connection st)))
              (history_table (committed (connection st'))) /\
  returned_counts st = returned_counts st'.
Proof.
  apply (order_independence_distinct_ids sample_isoformat never_raises sample_now store_S1
           [fetched_S1_A2; fetched_null_P1; fetched_S2]
           [fetched_S2; fetched_S1_A2; fetched_null_P1]).
  - reflexivity.
  - vm_compute. repeat constructor; simpl; intuition discriminate.
  - apply Permutation_sym.
    apply (Permutation_cons_app [fetched_S1_A2; fetched_null_P1] [] fetched_S2).
    apply Permutation_refl.
Defined.

(** C7 as stated fails: the same [system_id] fetched twice with two names
    leaves the name that comes last in the main table and the other one in
    the history table. *)
Lemma order_independence_counterexample :
  ~ (forall data data' : list SystemRecord,
       Permutation data data' ->
       let st := final (upsert_data sample_isoformat never_raises sample_now
                          (connect empty_store) data) in
       let st' := final (upsert_data sample_isoformat never_raises sample_now
                           (connect empty_store) data') in
       Permutation (main_table (committed (connection st)))
                   (main_table (committed (connection st'))) /\
       Permutation (history_table (committed (connection st)))
                   (history_table (committed (connection st'))) /\
       returned_counts st = returned_counts st').
Proof.
  intro H.
  destruct (H [fetched_S2; fetched_S2_renamed] [fetched_S2_renamed; fetched_S2]
              (perm_swap _ _ _)) as [HM _].
  vm_compute in HM. apply Permutation_length_1 in HM. discriminate HM.
Qed.

(** ** Configuration *)

(** X25. Each of the four variables the check reads is fatal when missing or
    empty: the program raises [ValueError] before [main] is entered. *)
Lemma missing_checked_variable_aborts isoformat raises now env projects fetch_pages
    pyodbc_connect :
  py_not (IDENTIFIER env) = true \/ py_not (SECRET_KEY env) = true \/
  py_not (server (SQL_SERVER_CONFIG env)) = true \/
  py_not (database (SQL_SERVER_CONFIG env)) = true ->
  program isoformat raises now env projects fetch_pages pyodbc_connect =
  ValueError "Missing environment variables".
Proof.
  intro H. unfold program, missing_environment_variables.
  destruct H as [H | [H | [H | H]]]; rewrite H, ?orb_true_r; reflexivity.
Qed.

(** C8 at its failing input. With the store's user and password unset the
    check of line 31 passes; the program lists the projects, fetches the
    systems of the selected one and only then reaches the store, with a
    connection string that names the user and the password [None]. *)
Theorem config_check_ignores_login :
  missing_environment_variables env_without_login = false /\
  program sample_isoformat never_raises sample_now env_without_login
    sample_projects (fun _ => [fetched_S2]) (fun _ => None) =
  Ran [GET_project; GET_system "P1";
       CONNECT ("DRIVER={ODBC Driver 17 for SQL Server};" ++
                "SERVER=sqlhost;DATABASE=cxalloy;UID=None;PWD=None")]
      None.
Proof. split; reflexivity. Qed.

(** ** Project selection *)

Lemma prefix_occurs (sub s : string) :
  prefix sub s = true <-> exists post, s = sub ++ post.
Proof.
  revert s. induction sub as [|a sub IH]; intro s.
  - split; [intros _; now exists s | intros _; now destruct s].
  - destruct s as [|b s]; simpl.
    + split; [discriminate | intros [post H]; discriminate H].
    + destruct (ascii_dec a b) as [->|Hne].
      * rewrite IH. split; intros [post H]; exists post; [now rewrite H | now inversion H].
      * split; [discriminate | intros [post H]; inversion H; congruence].
Qed.

Lemma py_in_occurs (sub s : string) :
  py_in sub s = true <-> occurs_in sub s.
Proof.
  unfold occurs_in. induction s as [|c s IH].
  - change (py_in sub "") with (prefix sub "" || false).
    rewrite orb_false_r, prefix_occurs. split.
    + intros [post H]. now exists "", post.
    + intros [pre [post H]]. destruct pre; [now exists post|discriminate H].
  - change (py_in sub (String c s)) with (prefix sub (String c s) || py_in sub s).
    rewrite orb_true_iff, prefix_occurs, IH. split.
    + intros [[post H]|[pre [post H]]].
      * now exists "", post.
      * exists (String c pre), post. simpl. now rewrite H.
    + intros [pre [post H]]. destruct pre as [|c' pre]; simpl in H.
      * left. now exists post.
      * right. inversion H. now exists pre, post.
Qed.

Lemma select_project_ids_spec projects pid :
  In pid (select_project_ids projects) <->
  exists proj, In proj projects /\ proj_project_id proj = pid /\
               occurs_in "GFTX" (proj_name proj).
Proof.
  unfold select_project_ids. rewrite in_map_iff. split.
  - intros [proj [Hid Hin]]. apply filter_In in Hin as [Hin Hname].
    exists proj. rewrite <- py_in_occurs. auto.
  - intros [proj [Hin [Hid Hname]]]. exists proj. split; [exact Hid|].
    apply filter_In. rewrite py_in_occurs. auto.
Qed.

Lemma fetched_projects_app t1 t2 :
  fetched_projects (t1 ++ t2) = (fetched_projects t1 ++ fetched_projects t2)%list.
Proof. unfold fetched_projects. apply flat_map_app. Qed.

Lemma fetched_projects_map pids :
  fetched_projects (map GET_system pids) = pids.
Proof.
  induction pids as [|pid pids IH]; simpl; [reflexivity | now rewrite IH].
Qed.

(** C10. Project filtering: in every run of [main] the projects whose systems
    are fetched are, in order, the [project_id]s of the listed projects whose
    name contains ["GFTX"]; a project is fetched only if a listed project with
    that [project_id] has such a name; and the batch handed to
    reconciliation holds the records fetched for those projects and no
    others. *)
Theorem project_filtering isoformat raises now env projects fetch_pages pyodbc_connect :
  let trace := trace_of (main isoformat raises now env projects fetch_pages pyodbc_connect) in
  fetched_projects trace =
    map proj_project_id
      (filter (fun proj => py_in "GFTX" (proj_name proj)) projects) /\
  (forall pid, In pid (fetched_projects trace) <->
     exists proj, In proj projects /\ proj_project_id proj = pid /\
                  occurs_in "GFTX" (proj_name proj)) /\
  (forall data, In (UPSERT data) trace ->
     data = flat_map fetch_pages (fetched_projects trace)).
Proof.
  assert (Htrace : fetched_projects
            (trace_of (main isoformat raises now env projects fetch_pages pyodbc_connect))
          = select_project_ids projects).
  { unfold main. destruct projects as [|proj projects']; [reflexivity|].
    set (ids := select_project_ids (proj :: projects')).
    destruct (fetch_data_for_projects fetch_pages ids) as [|record system_data].
    - simpl. now rewrite fetched_projects_map.
    - destruct (pyodbc_connect (conn_str env)) as [db|]; simpl.
      + rewrite fetched_projects_app, fetched_projects_map.
        destruct (upsert_data _ _ _ _ _); simpl; apply app_nil_r.
      + rewrite fetched_projects_app, fetched_projects_map. apply app_nil_r. }
  simpl. rewrite Htrace. split; [reflexivity|]. split.
  - apply select_project_ids_spec.
  - unfold main. destruct projects as [|proj projects']; [intros data [H|[]]; discriminate H|].
    set (ids := select_project_ids (proj :: projects')).
    unfold fetch_data_for_projects.
    destruct (flat_map fetch_pages ids) as [|record system_data] eqn:Hdata.
    + simpl. intros data [H|H]; [discriminate H|].
      apply in_map_iff in H as [pid [H _]]. discriminate H.
    + destruct (pyodbc_connect (conn_str env)) as [db|]; simpl; intros data [H|H];
        try discriminate H; apply in_app_or in H as [H|H];
        try (apply in_map_iff in H as [pid [H _]]; discriminate H).
      * simpl in H.
        destruct H as [H|[H|[H|[H|H]]]]; try discriminate H.
        -- now inversion H.
        -- destruct (upsert_data _ _ _ _ _); simpl in H;
             [destruct H as [H|[]]; discriminate H | contradiction].
      * destruct H as [H|[]]. discriminate H.
Qed.

(** * Further properties of the reconciler *)

(** ** Invariants of the loop under any failures *)

(** How the body can end, with what made it end so. *)
Lemma process_record_cases isoformat raises now i record st :
  let st' := snd (process_record isoformat raises now i record st) in
  st' = st \/
  (st' = inserted (now i) record st /\
   match system_id record with
   | None => True
   | Some sid => select_fetchone sid (session (connection st)) = None
   end) \/
  (exists sid existing_record,
     system_id record = Some sid /\
     select_fetchone sid (session (connection st)) = Some existing_record /\
     raises i UPDATE_main = true /\
     st' = archived existing_record st) \/
  (exists sid existing_record,
     system_id record = Some sid /\
     select_fetchone sid (session (connection st)) = Some existing_record /\
     st' = updated sid record
             (snd (compare_records isoformat (now i) sid record existing_record))
             (archived existing_record st)).
Proof.
  unfold process_record.
  pose proof (insert_values_own record) as Hrow.
  destruct (system_id record) as [sid|] eqn:Hid.
  - unfold bind, execute_select.
    destruct (raises i SELECT_main); [now left|].
    destruct (select_fetchone sid (session (connection st))) as [e|] eqn:Hsel.
    + destruct (compare_records isoformat (now i) sid record e)
        as [record_changed change_details] eqn:Hcmp.
      destruct record_changed; [|now left].
      unfold execute. destruct (raises i INSERT_history); [now left|].
      simpl. destruct (raises i UPDATE_main) eqn:Hu.
      * right. right. left. exists sid, e.
        repeat split; first [reflexivity | assumption].
      * right. right. right. exists sid, e.
        repeat split; rewrite ?Hcmp; first [reflexivity | assumption].
    + unfold execute. destruct (raises i INSERT_main); [now left|].
      right. left. rewrite Hrow. simpl. unfold inserted, subject_of. rewrite Hid.
      now split.
  - unfold bind, execute. destruct (raises i INSERT_main); [now left|].
    right. left. rewrite Hrow. simpl. unfold inserted, subject_of. rewrite Hid.
    now split.
Qed.

Lemma upsert_loop_invariant_body isoformat raises now (data0 : list SystemRecord)
    (P : LoopState -> Prop) :
  (forall st, P st -> P (commit st)) ->
  (forall i record st,
     In record data0 -> P st ->
     P (snd (process_record isoformat raises now i record st))) ->
  forall data i st,
    incl data data0 -> P st ->
    P (final (upsert_loop isoformat raises now i data st)).
Proof.
  intros Hcommit Hbody. induction data as [|record rest IH]; intros i st Hincl HP.
  - exact HP.
  - simpl.
    assert (Hin : In record data0) by (apply Hincl; now left).
    assert (Hrest : incl rest data0) by (intros x Hx; apply Hincl; now right).
    pose proof (Hbody i record st Hin HP) as HP'.
    destruct (process_record isoformat raises now i record st) as [[[]|] st'];
      simpl in HP'.
    + destruct (raises i COMMIT); [exact HP'|].
      apply IH; [exact Hrest | now apply Hcommit].
    + now apply IH.
Qed.

Lemma map_system_id_update sid record rows :
  map system_id (map (update_row sid record) rows) = map system_id rows.
Proof.
  rewrite map_map. apply map_ext. intro row. apply update_row_system_id.
Qed.

(** X1. Rows of the main table are never deleted, moved or given another
    [system_id]: after any run, with any failures, the [system_id] column of
    the main table as the connection sees it is the column it started with
    followed by one value per counted insert. *)
Theorem main_table_only_grows isoformat raises now conn data :
  let st := final (upsert_data isoformat raises now conn data) in
  exists added,
    map system_id (main_table (session (connection st))) =
      (map system_id (main_table (session conn)) ++ added)%list /\
    length added = rows_added st.
Proof.
  apply (upsert_loop_invariant_body isoformat raises now data
           (fun st => exists added,
              map system_id (main_table (session (connection st))) =
                (map system_id (main_table (session conn)) ++ added)%list /\
              length added = rows_added st)).
  - intros st H. exact H.
  - intros i record st _ [added [Hmap Hlen]].
    destruct (process_record_cases isoformat raises now i record st)
      as [->|[[-> _]|[[sid [e [_ [_ [_ ->]]]]]|[sid [e [_ [_ ->]]]]]]].
    + now exists added.
    + exists (added ++ [system_id record])%list. simpl. split.
      * now rewrite map_app, Hmap, <- app_assoc.
      * rewrite length_app. simpl. lia.
    + now exists added.
    + exists added. simpl. now rewrite map_system_id_update.
  - apply incl_refl.
  - exists []. simpl. now rewrite app_nil_r.
Qed.

(** X2. The history table is append-only and [historical_count] counts its
    new rows: after any run, with any failures, the history table as the
    connection sees it is the table it started with followed by exactly
    [historical_count] rows. *)
Theorem history_append_only isoformat raises now conn data :
  let st := final (upsert_data isoformat raises now conn data) in
  exists archived_rows,
    history_table (session (connection st)) =
      (history_table (session conn) ++ archived_rows)%list /\
    length archived_rows = historical_count st.
Proof.
  apply (upsert_loop_invariant_body isoformat raises now data
           (fun st => exists archived_rows,
              history_table (session (connection st)) =
                (history_table (session conn) ++ archived_rows)%list /\
              length archived_rows = historical_count st)).
  - intros st H. exact H.
  - intros i record st _ [rows [Hhist Hlen]].
    destruct (process_record_cases isoformat raises now i record st)
      as [->|[[-> _]|[[sid [e [_ [_ [_ ->]]]]]|[sid [e [_ [_ ->]]]]]]].
    + now exists rows.
    + now exists rows.
    + exists (rows ++ [e])%list. simpl. split.
      * now rewrite Hhist, <- app_assoc.
      * rewrite length_app. simpl. lia.
    + exists (rows ++ [e])%list. simpl. split.
      * now rewrite Hhist, <- app_assoc.
      * rewrite length_app. simpl. lia.
  - apply incl_refl.
  - exists []. simpl. now rewrite app_nil_r.
Qed.

(** X3. No update is counted without its archive: after any run, with any
    failures, [rows_updated] is at most [historical_count]. *)
Theorem updates_never_exceed_archives isoformat raises now conn data :
  let st := final (upsert_data isoformat raises now conn data) in
  rows_updated st <= historical_count st.
Proof.
  apply (upsert_loop_invariant_body isoformat raises now data
           (fun st => rows_updated st <= historical_count st)).
  - intros st H. exact H.
  - intros i record st _ H.
    destruct (process_record_cases isoformat raises now i record st)
      as [->|[[-> _]|[[sid [e [_ [_ [_ ->]]]]]|[sid [e [_ [_ ->]]]]]]];
      simpl; lia.
  - apply incl_refl.
  - simpl. lia.
Qed.

(** X4. When no [UPDATE] raises, whatever else does, every archive is matched
    by its update: [rows_updated] equals [historical_count]. *)
Theorem archives_match_updates isoformat raises now conn data :
  (forall i, raises i UPDATE_main = false) ->
  let st := final (upsert_data isoformat raises now conn data) in
  rows_updated st = historical_count st.
Proof.
  intro Hu.
  apply (upsert_loop_invariant_body isoformat raises now data
           (fun st => rows_updated st = historical_count st)).
  - intros st H. exact H.
  - intros i record st _ H.
    destruct (process_record_cases isoformat raises now i record st)
      as [->|[[-> _]|[[sid [e [_ [_ [Hr ->]]]]]|[sid [e [_ [_ ->]]]]]]];
      simpl; try lia.
    rewrite Hu in Hr. discriminate Hr.
  - apply incl_refl.
  - reflexivity.
Qed.

Lemma archives_match_updates_witness :
  let st := final (upsert_data sample_isoformat (raises_at 0 INSERT_history) sample_now
                     (connect store_S1) [fetched_S1_A2; fetched_S1_A2]) in
  rows_updated st = historical_count st.
Proof.
  apply (archives_match_updates sample_isoformat (raises_at 0 INSERT_history) sample_now
           (connect store_S1) [fetched_S1_A2; fetched_S1_A2]).
  intro i. unfold raises_at. simpl. apply andb_false_r.
Defined.

Lemma in_batch_ids sid rows :
  In sid (batch_ids rows) <-> exists row, In row rows /\ system_id row = Some sid.
Proof.
  unfold batch_ids. rewrite in_flat_map. split.
  - intros [row [Hin Hsid]]. exists row. split; [exact Hin|].
    destruct (system_id row) as [sid0|]; [|contradiction].
    destruct Hsid as [->|[]]. reflexivity.
  - intros [row [Hin Hsid]]. exists row. split; [exact Hin|].
    rewrite Hsid. now left.
Qed.

Lemma batch_ids_app rows1 rows2 :
  batch_ids (rows1 ++ rows2) = (batch_ids rows1 ++ batch_ids rows2)%list.
Proof. unfold batch_ids. apply flat_map_app. Qed.

Lemma batch_ids_update sid record rows :
  batch_ids (map (update_row sid record) rows) = batch_ids rows.
Proof.
  induction rows as [|row rows IH]; [reflexivity|].
  simpl. unfold batch_ids in *. simpl.
  now rewrite update_row_system_id, IH.
Qed.

Lemma NoDup_snoc {A} (l : list A) (x : A) :
  NoDup l -> ~ In x l -> NoDup (l ++ [x]).
Proof.
  intros Hnd Hnotin. apply (Permutation_NoDup (l := x :: l)).
  - apply Permutation_cons_append.
  - now constructor.
Qed.

(** X5. Reconciliation never creates a second row for a [system_id]: if no two
    rows of the main table share a non-null [system_id] before the run, none
    do after it, whatever the batch (duplicates included) and whichever
    statements raise. *)
Theorem system_ids_stay_unique isoformat raises now conn data :
  NoDup (batch_ids (main_table (session conn))) ->
  NoDup (batch_ids (main_table (session (connection
           (final (upsert_data isoformat raises now conn data)))))).
Proof.
  intro Hnd.
  apply (upsert_loop_invariant_body isoformat raises now data
           (fun st => NoDup (batch_ids (main_table (session (connection st)))))).
  - intros st H. exact H.
  - intros i record st _ H.
    destruct (process_record_cases isoformat raises now i record st)
      as [->|[[-> Habsent]|[[sid [e [_ [_ [_ ->]]]]]|[sid [e [_ [_ ->]]]]]]].
    + exact H.
    + simpl. rewrite batch_ids_app. unfold batch_ids at 2. simpl.
      destruct (system_id record) as [sid|]; simpl.
      * apply NoDup_snoc; [exact H|].
        intro Hin. apply in_batch_ids in Hin as [row [Hrow Hsid]].
        exact (proj1 (select_fetchone_none sid _) Habsent row Hrow Hsid).
      * now rewrite app_nil_r.
    + exact H.
    + simpl. now rewrite batch_ids_update.
  - apply incl_refl.
  - exact Hnd.
Qed.

Lemma system_ids_stay_unique_witness :
  NoDup (batch_ids (main_table (session (connection
           (final (upsert_data sample_isoformat never_raises sample_now (connect store_S1)
                     [fetched_S2; fetched_S2_renamed; fetched_S1_A2])))))).
Proof.
  apply (system_ids_stay_unique sample_isoformat never_raises sample_now (connect store_S1)
           [fetched_S2; fetched_S2_renamed; fetched_S1_A2]).
  vm_compute. repeat constructor. intros [].
Defined.

(** The rows of a [system_id] that no record of the batch carries are left
    as they are. *)
Lemma upsert_loop_other_rows isoformat raises now data0 sid :
  ~ In sid (batch_ids data0) ->
  forall data i st,
    incl data data0 ->
    filter (where_system_id sid)
      (main_table (session (connection (final (upsert_loop isoformat raises now i data st)))))
    = filter (where_system_id sid) (main_table (session (connection st))).
Proof.
  intros Hnotin data i st Hincl.
  apply (upsert_loop_invariant_body isoformat raises now data0
           (fun st' => filter (where_system_id sid)
                         (main_table (session (connection st')))
                       = filter (where_system_id sid)
                           (main_table (session (connection st)))));
    [| |exact Hincl|reflexivity].
  - intros st' H. exact H.
  - intros j record st' Hin H.
    assert (Hne : system_id record <> Some sid).
    { intro E. apply Hnotin. apply in_batch_ids. now exists record. }
    destruct (process_record_cases isoformat raises now j record st')
      as [->|[[-> _]|[[sid0 [e [_ [_ [_ ->]]]]]|[sid0 [e [Hid [_ ->]]]]]]].
    + exact H.
    + simpl. rewrite filter_app, filter_where_single.
      destruct (where_system_id sid record) eqn:W.
      * apply where_system_id_iff in W. contradiction.
      * now rewrite app_nil_r.
    + exact H.
    + simpl. rewrite filter_where_update_other; [exact H|]. congruence.
Qed.

(** X6. Reconciliation touches only the systems of its batch: the rows of the
    main table under a [system_id] that no record of the batch carries are the
    same rows, in the same order, after the run as before, whichever
    statements raise. *)
Theorem other_systems_untouched isoformat raises now conn data sid :
  ~ In sid (batch_ids data) ->
  filter (where_system_id sid)
    (main_table (session (connection
       (final (upsert_data isoformat raises now conn data)))))
  = filter (where_system_id sid) (main_table (session conn)).
Proof.
  intro Hnotin. unfold upsert_data.
  rewrite (upsert_loop_other_rows isoformat raises now data sid Hnotin data 0
             (initial_state conn) (incl_refl data)).
  reflexivity.
Qed.

Lemma other_systems_untouched_witness :
  filter (where_system_id "S1")
    (main_table (session (connection
       (final (upsert_data sample_isoformat never_raises sample_now (connect store_S1)
                 [fetched_S2; fetched_null_P1])))))
  = filter (where_system_id "S1") (main_table (session (connect store_S1))).
Proof.
  apply (other_systems_untouched sample_isoformat never_raises sample_now
           (connect store_S1) [fetched_S2; fetched_null_P1] "S1").
  vm_compute. intros [H|[]]. discriminate H.
Defined.

(** X7. A failing record never ends the batch: as long as no
    [connection.commit()] raises, [upsert_data] returns, whichever
    [cursor.execute] calls raise on whichever records. *)
Theorem record_failures_never_abort isoformat raises now conn data :
  (forall i, raises i COMMIT = false) ->
  exists st, upsert_data isoformat raises now conn data = Returned st.
Proof.
  intro Hcommit. unfold upsert_data.
  generalize 0 (initial_state conn).
  induction data as [|record rest IH]; intros i st; simpl.
  - now exists st.
  - destruct (process_record isoformat raises now i record st) as [[[]|] st'].
    + rewrite Hcommit. apply IH.
    + apply IH.
Qed.

Lemma record_failures_never_abort_witness :
  exists st,
    upsert_data sample_isoformat (raises_at 0 UPDATE_main) sample_now
      (connect store_S1) [fetched_S1_A2; fetched_S2] = Returned st.
Proof.
  apply (record_failures_never_abort sample_isoformat (raises_at 0 UPDATE_main) sample_now
           (connect store_S1) [fetched_S1_A2; fetched_S2]).
  intro i. unfold raises_at. simpl. apply andb_false_r.
Defined.

Lemma raise_before_update_leaves_state_witness :
  snd (process_record sample_isoformat (raises_at 0 INSERT_history) sample_now
         0 fetched_S1_A2 (initial_state (connect store_S1)))
  = initial_state (connect store_S1).
Proof.
  apply (raise_before_update_leaves_state sample_isoformat (raises_at 0 INSERT_history)
           sample_now 0 fetched_S1_A2 (initial_state (connect store_S1))).
  - reflexivity.
  - reflexivity.
Defined.

(** ** What a run without failures leaves behind *)

Lemma find_app_last {A} (p : A -> bool) (l : list A) (x : A) :
  find p l = None -> p x = true -> find p (l ++ [x]) = Some x.
Proof.
  induction l as [|y l IH]; simpl; intros Hnone Hx.
  - now rewrite Hx.
  - destruct (p y); [discriminate Hnone | now apply IH].
Qed.

Lemma find_map_stable {A} (p : A -> bool) (f : A -> A) (l : list A) :
  (forall x, p (f x) = p x) ->
  find p (map f l) = option_map f (find p l).
Proof.
  intro H. induction l as [|x l IH]; simpl; [reflexivity|].
  rewrite H. destruct (p x); [reflexivity | exact IH].
Qed.

Lemma same_compared_refl record : same_compared record record.
Proof. repeat split. Qed.

Lemma same_compared_set_columns record row :
  same_compared record (set_columns record row).
Proof. repeat split. Qed.

Section Convergence.
Variable isoformat : datetime -> string.
Variable raises : nat -> statement -> bool.
Variable now : nat -> string.
Hypothesis never : forall i s, raises i s = false.

(** Right after its turn a record with a [system_id] is what the lookup of
    that [system_id] returns, as far as the compared attributes go. *)
Lemma turn_reflects_record i record sid st :
  system_id record = Some sid ->
  exists row,
    select_fetchone sid
      (session (connection (commit (snd (process_record isoformat raises now i record st)))))
    = Some row /\
    same_compared record row.
Proof.
  intro Hid.
  rewrite (process_record_never isoformat raises now never). cbn [snd].
  change (session (connection (commit ?x))) with (session (connection x)).
  rewrite Hid.
  assert (Hw : where_system_id sid record = true) by now apply where_system_id_iff.
  destruct (select_fetchone sid (session (connection st))) as [e|] eqn:Hsel.
  - destruct (existsb (differs record e) COMPARED_KEYS) eqn:Hflag.
    + exists (set_columns record e). split; [|apply same_compared_set_columns].
      unfold select_fetchone in *. simpl.
      rewrite find_map_stable by (intro; apply where_update_row).
      rewrite Hsel. simpl. unfold update_row.
      apply find_some in Hsel as [_ We]. now rewrite We.
    + exists e. split; [exact Hsel|]. now apply same_compared_unchanged.
  - exists record. split; [|apply same_compared_refl].
    unfold select_fetchone in *. simpl. now apply find_app_last.
Qed.

Lemma upsert_loop_reflects data :
  NoDup (batch_ids data) ->
  forall i st record sid,
    In record data -> system_id record = Some sid ->
    exists row,
      select_fetchone sid
        (session (connection (final (upsert_loop isoformat raises now i data st))))
      = Some row /\
      same_compared record row.
Proof.
  induction data as [|record0 rest IH]; intros Hnd i st record sid Hin Hid;
    [contradiction|].
  rewrite (upsert_loop_never_cons isoformat raises now never).
  destruct Hin as [->|Hin].
  - assert (Hnotin : ~ In sid (batch_ids rest)).
    { change (batch_ids (record :: rest)) with
        ((match system_id record with Some s => [s] | None => [] end) ++ batch_ids rest)%list
        in Hnd.
      rewrite Hid in Hnd. simpl in Hnd. now inversion Hnd. }
    unfold select_fetchone. rewrite find_hd_filter.
    rewrite (upsert_loop_other_rows isoformat raises now rest sid Hnotin rest (S i) _
               (incl_refl rest)).
    rewrite <- find_hd_filter. now apply turn_reflects_record.
  - apply IH; [|exact Hin|exact Hid].
    change (batch_ids (record0 :: rest)) with
      ((match system_id record0 with Some s => [s] | None => [] end) ++ batch_ids rest)%list
      in Hnd.
    now apply NoDup_app_remove_l in Hnd.
Qed.

End Convergence.

(** X8. For payloads whose compared attributes are strings or null (the
    records of this model, which the store returns as they were written):
    after a run in which nothing raises, on a batch without duplicate
    identifiers, the store reflects the batch, that is, looking up the
    [system_id] of any record of the batch returns a row that agrees with the
    record on the nine compared attributes. *)
Theorem store_reflects_batch isoformat raises now conn data record sid :
  (forall i s, raises i s = false) ->
  NoDup (batch_ids data) ->
  In record data -> system_id record = Some sid ->
  exists row,
    select_fetchone sid
      (session (connection (final (upsert_data isoformat raises now conn data))))
    = Some row /\
    same_compared record row.
Proof.
  intros never Hnd Hin Hid.
  exact (upsert_loop_reflects isoformat raises now never data Hnd 0 (initial_state conn)
           record sid Hin Hid).
Qed.

Lemma store_reflects_batch_witness :
  exists row,
    select_fetchone "S1"
      (session (connection
         (final (upsert_data sample_isoformat never_raises sample_now (connect store_S1)
                   [fetched_S2; fetched_S1_A2]))))
    = Some row /\
    same_compared fetched_S1_A2 row.
Proof.
  apply (store_reflects_batch sample_isoformat never_raises sample_now (connect store_S1)
           [fetched_S2; fetched_S1_A2] fetched_S1_A2 "S1").
  - reflexivity.
  - vm_compute. repeat constructor; simpl; intuition discriminate.
  - right. now left.
  - reflexivity.
Defined.

(** X9. For payloads whose compared attributes are strings or null (the
    records of this model, which the store returns as they were written),
    reconciliation converges: after a run in which nothing raises, on a batch
    whose records all carry a [system_id] and no two the same one, a second
    run of the same batch on the same connection adds, updates, archives and
    logs nothing and leaves the connection as it is, whichever statements
    raise in the second run. *)
Theorem second_run_is_noop isoformat raises now db data raises2 now2 :
  (forall i s, raises i s = false) ->
  NoDup (batch_ids data) ->
  (forall record, In record data -> system_id record <> None) ->
  let st1 := final (upsert_data isoformat raises now (connect db) data) in
  let st2 := final (upsert_data isoformat raises2 now2 (connection st1) data) in
  rows_added st2 = 0 /\ rows_updated st2 = 0 /\ historical_count st2 = 0 /\
  changes_log st2 = [] /\ connection st2 = connection st1.
Proof.
  intros never Hnd Hids. simpl.
  assert (Hnoop :
    final (upsert_data isoformat raises2 now2
             (connection (final (upsert_data isoformat raises now (connect db) data))) data)
    = initial_state (connection (final (upsert_data isoformat raises now (connect db) data)))).
  { unfold upsert_data at 1. apply upsert_loop_all_noop.
    - simpl. symmetry.
      apply (upsert_loop_committed isoformat raises now never). reflexivity.
    - intros record Hin.
      destruct (system_id record) as [sid|] eqn:Hid; [|now destruct (Hids record Hin)].
      exists sid.
      destruct (upsert_loop_reflects isoformat raises now never data Hnd 0
                  (initial_state (connect db)) record sid Hin Hid) as [row [Hsel Hsame]].
      exists row. split; [reflexivity|]. split; [exact Hsel | exact Hsame]. }
  rewrite Hnoop. repeat split.
Qed.

Lemma second_run_is_noop_witness :
  let st1 := final (upsert_data sample_isoformat never_raises sample_now
                      (connect store_S1) [fetched_S2; fetched_S1_A2]) in
  let st2 := final (upsert_data sample_isoformat (raises_at 1 COMMIT) sample_now
                      (connection st1) [fetched_S2; fetched_S1_A2]) in
  rows_added st2 = 0 /\ rows_updated st2 = 0 /\ historical_count st2 = 0 /\
  changes_log st2 = [] /\ connection st2 = connection st1.
Proof.
  apply (second_run_is_noop sample_isoformat never_raises sample_now store_S1
           [fetched_S2; fetched_S1_A2] (raises_at 1 COMMIT) sample_now).
  - reflexivity.
  - vm_compute. repeat constructor; simpl; intuition discriminate.
  - intros record [<-|[<-|[]]]; discriminate.
Defined.

(** ** The audit file *)

Lemma insert_entry_fits timestamp subject :
  entry_fits (insert_entry timestamp subject) = true.
Proof. reflexivity. Qed.

Lemma update_entry_fits isoformat timestamp sid record existing_record :
  entry_fits (snd (compare_records isoformat timestamp sid record existing_record)) = true.
Proof. rewrite compare_records_entry. reflexivity. Qed.

Lemma cells_of_complete_entry entry cols :
  forallb (fun col => match dict_get col entry with Some _ => true | None => false end) cols
  = true ->
  Forall2 (fun col cell => dict_get col entry = Some cell) cols
    (map (fun col => match dict_get col entry with Some v => v | None => "" end) cols).
Proof.
  induction cols as [|col cols IH]; simpl; intro H; [constructor|].
  apply andb_true_iff in H as [Hcol Hcols]. constructor; [|now apply IH].
  destruct (dict_get col entry); [reflexivity | discriminate Hcol].
Qed.

Lemma writerows_fitting_entries log :
  Forall (fun entry => entry_fits entry = true) log ->
  exists rows,
    writerows CSV_COLUMNS log = Some rows /\
    Forall2 (fun entry row =>
               Forall2 (fun col cell => dict_get col entry = Some cell) CSV_COLUMNS row)
      log rows.
Proof.
  induction 1 as [|entry log Hfit _ [rows [Hrows Hcells]]].
  - exists []. split; [reflexivity | constructor].
  - unfold entry_fits in Hfit. apply andb_true_iff in Hfit as [Hkeys Hcols].
    eexists. split.
    + cbn [writerows]. unfold dict_to_list. rewrite Hkeys, Hrows. reflexivity.
    + constructor; [now apply cells_of_complete_entry | exact Hcells].
Qed.

(** X10. The audit file can always be written in full: after any run, with any
    failures, every entry of the change log has a value under each of the 25
    columns and no other key, so that [DictWriter] raises on none of them and
    falls back to its default in no cell; the file is the header followed by
    one line per counted insert or update, each cell the entry's value under
    that column. *)
Theorem audit_file_complete isoformat raises now conn data :
  let st := final (upsert_data isoformat raises now conn data) in
  exists rows,
    write_changes_log (changes_log st) = Some (CSV_COLUMNS :: rows) /\
    length rows = rows_added st + rows_updated st /\
    Forall2 (fun entry row =>
               Forall2 (fun col cell => dict_get col entry = Some cell) CSV_COLUMNS row)
      (changes_log st) rows.
Proof.
  simpl.
  assert (Hinv :
    Forall (fun entry => entry_fits entry = true)
      (changes_log (final (upsert_data isoformat raises now conn data))) /\
    length (changes_log (final (upsert_data isoformat raises now conn data))) =
    rows_added (final (upsert_data isoformat raises now conn data)) +
    rows_updated (final (upsert_data isoformat raises now conn data))).
  { apply (upsert_loop_invariant_body isoformat raises now data
             (fun st => Forall (fun entry => entry_fits entry = true) (changes_log st) /\
                        length (changes_log st) = rows_added st + rows_updated st)).
    - intros st H. exact H.
    - intros i record st _ [Hfit Hlen].
      destruct (process_record_cases isoformat raises now i record st)
        as [->|[[-> _]|[[sid [e [_ [_ [_ ->]]]]]|[sid [e [_ [_ ->]]]]]]]; simpl.
      + now split.
      + split.
        * apply Forall_app. split; [exact Hfit|]. constructor; [|constructor].
          apply insert_entry_fits.
        * rewrite length_app. simpl. lia.
      + now split.
      + split.
        * apply Forall_app. split; [exact Hfit|]. constructor; [|constructor].
          apply update_entry_fits.
        * rewrite length_app. simpl. lia.
    - apply incl_refl.
    - split; [constructor | reflexivity]. }
  destruct Hinv as [Hfit Hlen].
  destruct (writerows_fitting_entries _ Hfit) as [rows [Hrows Hcells]].
  exists rows. unfold write_changes_log. rewrite Hrows.
  split; [reflexivity|]. split; [|exact Hcells].
  rewrite <- Hlen. symmetry. exact (Forall2_length Hcells).
Qed.

(** * Properties of the fetcher *)

(** ** Normalisation *)

Lemma last_default {A} (l : list A) (d d' : A) :
  l <> [] -> last l d = last l d'.
Proof.
  induction l as [|x l IH]; intro H; [contradiction|].
  destruct l as [|y l]; [reflexivity|]. apply IH. discriminate.
Qed.

Lemma fold_left_last {A B} (f : A -> B) (l : list A) (d : B) :
  fold_left (fun _ x => f x) l d = last (map f l) d.
Proof.
  revert d. induction l as [|x l IH]; intro d; [reflexivity|].
  simpl fold_left. rewrite IH. destruct l as [|y l]; [reflexivity|].
  change (map f (x :: y :: l)) with (f x :: map f (y :: l)).
  change (last (f x :: map f (y :: l)) d) with (last (map f (y :: l)) d).
  apply last_default. discriminate.
Qed.

Lemma resolve_system_id_last record :
  resolve_system_id record =
  match last (map sys_system_id (raw_systems record)) None with
  | Some sid => if sid =? "" then raw_system_id record else Some sid
  | None => raw_system_id record
  end.
Proof.
  unfold resolve_system_id. rewrite fold_left_last.
  destruct (last (map sys_system_id (raw_systems record)) None) as [sid|];
    [|reflexivity].
  simpl. now destruct (sid =? "").
Qed.

(** X11. The last system decides the identifier: the [system_id] of a
    normalised record is that of the last entry of [systems] when that one has
    a non-empty [system_id], and the record's own [system_id] otherwise (no
    systems, or a last system without identifier), whatever the earlier
    systems hold. *)
Theorem system_id_of_last_system fromisoformat_utc time_updated record :
  system_id (process_equipment fromisoformat_utc time_updated record) =
  match last (map sys_system_id (raw_systems record)) None with
  | Some sid => if sid =? "" then raw_system_id record else Some sid
  | None => raw_system_id record
  end.
Proof. apply resolve_system_id_last. Qed.

(** X12. The last checklist decides both checklist fields: without checklists
    [checklist_id] is null and [checklist_name] is the record's own; with
    checklists both come from the last one, the record's own
    [checklist_name] being dropped even when that checklist has no name. *)
Theorem checklist_of_last_checklist fromisoformat_utc time_updated record :
  let equipment := process_equipment fromisoformat_utc time_updated record in
  (checklist_id equipment, checklist_name equipment) =
  last (map (fun checklist => (cl_checklist_id checklist, cl_name checklist))
          (raw_checklists record))
       (None, raw_checklist_name record).
Proof.
  simpl. unfold resolve_checklist. rewrite fold_left_last.
  now destruct (last _ _).
Qed.

(** X13. The first attribute named "handover date" (in any letter case) with a
    non-empty value decides [handover_date]: the date is the parse of that
    value with every ["Z"] written ["+00:00"], null when it does not parse,
    whatever the attributes after it hold; without such an attribute it is
    null. *)
Theorem handover_of_first_match fromisoformat_utc time_updated record :
  handover_date (process_equipment fromisoformat_utc time_updated record) =
  match find handover_attribute (raw_attributes record) with
  | Some attr => fromisoformat_utc (replace_Z (str_or_blank (attr_value attr)))
  | None => None
  end.
Proof.
  simpl. induction (raw_attributes record) as [|attr rest IH]; [reflexivity|].
  simpl. unfold handover_attribute at 1.
  destruct (lower _ =? "handover date"); simpl; [|exact IH].
  destruct (attr_value attr) as [date_str|] eqn:Hv; simpl; [|exact IH].
  destruct (date_str =? ""); simpl; [exact IH | now rewrite Hv].
Qed.

Lemma process_equipment_from_nth fromisoformat_utc utcnow data :
  forall i k,
    nth_error (process_equipment_from fromisoformat_utc utcnow i data) k =
    option_map (process_equipment fromisoformat_utc (utcnow (i + k))) (nth_error data k).
Proof.
  induction data as [|record rest IH]; intros i k.
  - now destruct k.
  - destruct k as [|k]; simpl.
    + now rewrite Nat.add_0_r.
    + rewrite IH. now rewrite Nat.add_succ_r.
Qed.

(** X14. Normalisation works record by record: the output has one record per
    input record, in the same order, and record number [k] depends on input
    record [k] and the clock alone; nothing (identifier, checklist or
    handover date) carries over from one record to the next. *)
Theorem process_equipment_data_pointwise fromisoformat_utc utcnow data :
  length (process_equipment_data fromisoformat_utc utcnow data) = length data /\
  forall k,
    nth_error (process_equipment_data fromisoformat_utc utcnow data) k =
    option_map (process_equipment fromisoformat_utc (utcnow k)) (nth_error data k).
Proof.
  split.
  - unfold process_equipment_data. generalize 0.
    induction data as [|record rest IH]; intro i; simpl; [reflexivity|].
    now rewrite IH.
  - intro k. unfold process_equipment_data.
    now rewrite process_equipment_from_nth.
Qed.

(** X15. A fetched record without identifier is inserted by every run: when
    the record has no [system_id] of its own and its last system gives none,
    reconciling its normalised form appends it to the main table and counts
    one insert, whatever the store holds, so that each synchronisation adds
    the record once more. *)
Theorem anonymous_record_always_inserted fromisoformat_utc time_updated record
    isoformat raises now conn :
  raw_system_id record = None ->
  py_not (last (map sys_system_id (raw_systems record)) None) = true ->
  raises 0 INSERT_main = false ->
  let equipment := process_equipment fromisoformat_utc time_updated record in
  let st := final (upsert_data isoformat raises now conn [equipment]) in
  rows_added st = 1 /\
  main_table (session (connection st)) = (main_table (session conn) ++ [equipment])%list.
Proof.
  intros Hown Hlast Hins. cbv zeta.
  assert (Hid : system_id (process_equipment fromisoformat_utc time_updated record) = None).
  { simpl. rewrite resolve_system_id_last.
    destruct (last (map sys_system_id (raw_systems record)) None) as [sid|];
      [|exact Hown].
    simpl in Hlast. now rewrite Hlast. }
  unfold upsert_data. cbn [upsert_loop].
  rewrite process_record_insert by (try rewrite Hid; trivial).
  destruct (raises 0 COMMIT); simpl; split; reflexivity.
Qed.

Lemma anonymous_record_always_inserted_witness :
  let equipment := process_equipment sample_fromisoformat_utc 1700000000%Z raw_anonymous in
  let st := final (upsert_data sample_isoformat never_raises sample_now
                     (connect store_S1) [equipment]) in
  rows_added st = 1 /\
  main_table (session (connection st)) =
    (main_table (session (connect store_S1)) ++ [equipment])%list.
Proof.
  apply (anonymous_record_always_inserted sample_fromisoformat_utc 1700000000%Z
           raw_anonymous sample_isoformat never_raises sample_now (connect store_S1)).
  - reflexivity.
  - reflexivity.
  - reflexivity.
Defined.

(** The worked payload: the last system and the last checklist win, and the
    first handover attribute with a value decides although it does not parse. *)
Example normalised_chiller :
  process_equipment sample_fromisoformat_utc 1700000000%Z raw_chiller =
  mkRecord (Some "S9") (Some "P1") (Some "Chiller") None None None None None
    (Some 1700000000%Z) (Some "C2") None None.
Proof. reflexivity. Qed.

(** ** Paging *)

Lemma flat_map_seq_shift {A} (f : nat -> list A) (a n : nat) :
  flat_map f (seq (S a) n) = flat_map (fun k => f (S k)) (seq a n).
Proof.
  revert a. induction n as [|n IH]; intro a; simpl; [reflexivity|].
  now rewrite IH.
Qed.

Section Paging.
Variable fromisoformat_utc : string -> option datetime.
Variable api_system : string -> nat -> option (list RawRecord).
Variable utcnow : string -> nat -> nat -> datetime.

Lemma process_equipment_data_nil clock :
  process_equipment_data fromisoformat_utc clock [] = [].
Proof. reflexivity. Qed.

(** One turn of the paging loop. *)
Lemma fetch_pages_loop_step fuel project_id page :
  fetch_pages_loop fromisoformat_utc api_system utcnow (S fuel) project_id page =
  match api_system project_id page with
  | None => Some []
  | Some page_data =>
      if (length page_data <? 500)%nat
      then Some (page_records api_system fromisoformat_utc utcnow project_id page)
      else
        match fetch_pages_loop fromisoformat_utc api_system utcnow fuel project_id (S page)
        with
        | None => None
        | Some more =>
            Some (page_records api_system fromisoformat_utc utcnow project_id page
                  ++ more)%list
        end
  end.
Proof.
  simpl. unfold page_records.
  destruct (api_system project_id page) as [[|record page_data]|]; reflexivity.
Qed.

Lemma fetch_pages_loop_collects project_id n :
  forall fuel page,
    (forall k, k < n -> full_page api_system project_id (page + k)) ->
    ~ full_page api_system project_id (page + n) ->
    n < fuel ->
    fetch_pages_loop fromisoformat_utc api_system utcnow fuel project_id page =
    Some (flat_map
            (fun k => page_records api_system fromisoformat_utc utcnow project_id (page + k))
            (seq 0 (S n))).
Proof.
  induction n as [|n IH]; intros fuel page Hfull Hstop Hfuel.
  - destruct fuel as [|fuel]; [lia|]. rewrite fetch_pages_loop_step.
    rewrite Nat.add_0_r in Hstop. simpl. rewrite Nat.add_0_r, app_nil_r.
    unfold page_records.
    destruct (api_system project_id page) as [page_data|] eqn:Hapi; [|reflexivity].
    destruct (length page_data <? 500)%nat eqn:Hlen; [reflexivity|].
    exfalso. apply Hstop. exists page_data. split; [exact Hapi|].
    apply Nat.ltb_ge in Hlen. exact Hlen.
  - destruct fuel as [|fuel]; [lia|]. rewrite fetch_pages_loop_step.
    destruct (Hfull 0 ltac:(lia)) as [page_data [Hapi Hlen]].
    rewrite Nat.add_0_r in Hapi. rewrite Hapi.
    apply Nat.ltb_ge in Hlen. rewrite Hlen.
    rewrite (IH fuel (S page)).
    + f_equal. change (seq 0 (S (S n))) with (0 :: seq 1 (S n)).
      cbn [flat_map]. rewrite Nat.add_0_r. f_equal.
      rewrite flat_map_seq_shift.
      apply flat_map_ext. intro k. now rewrite Nat.add_succ_r.
    + intros k Hk. replace (S page + k) with (page + S k) by lia. apply Hfull. lia.
    + replace (S page + n) with (page + S n) by lia. exact Hstop.
    + lia.
Qed.

Lemma fetch_pages_loop_runs_on project_id :
  forall fuel page,
    (forall p, page <= p -> full_page api_system project_id p) ->
    fetch_pages_loop fromisoformat_utc api_system utcnow fuel project_id page = None.
Proof.
  induction fuel as [|fuel IH]; intros page Hfull; [reflexivity|].
  rewrite fetch_pages_loop_step.
  destruct (Hfull page (le_n page)) as [page_data [Hapi Hlen]].
  rewrite Hapi. apply Nat.ltb_ge in Hlen. rewrite Hlen.
  rewrite IH; [reflexivity|]. intros p Hp. apply Hfull. lia.
Qed.

End Paging.

(** X16. Paging stops at the first page that is not full and keeps what it
    has: when the pages [1 .. n] of a project are full (500 records or more)
    and page [n + 1] is not (fewer records, none, or a failed request), the
    loop ends within [n + 1] requests with the normalised records of the
    pages [1 .. n + 1] in order, a failed page counting as empty; no later
    page is consulted. *)
Theorem paging_stops_at_first_short_page fromisoformat_utc api_system utcnow
    project_id n fuel :
  (forall k, k < n -> full_page api_system project_id (1 + k)) ->
  ~ full_page api_system project_id (1 + n) ->
  n < fuel ->
  fetch_pages_loop fromisoformat_utc api_system utcnow fuel project_id 1 =
  Some (flat_map
          (fun k => page_records api_system fromisoformat_utc utcnow project_id (1 + k))
          (seq 0 (S n))).
Proof.
  intros Hfull Hstop Hfuel.
  now apply fetch_pages_loop_collects.
Qed.

Lemma paging_stops_at_first_short_page_witness :
  fetch_pages_loop sample_fromisoformat_utc sample_api sample_utcnow 1 "P1" 1 =
  Some (flat_map
          (fun k => page_records sample_api sample_fromisoformat_utc sample_utcnow "P1" (1 + k))
          (seq 0 1)).
Proof.
  apply (paging_stops_at_first_short_page sample_fromisoformat_utc sample_api sample_utcnow
           "P1" 0 1).
  - intros k Hk. lia.
  - intros [page_data [Hapi Hlen]]. vm_compute in Hapi.
    inversion Hapi. subst page_data. simpl in Hlen. lia.
  - lia.
Defined.

(** X17. Paging has no other way out: against an endpoint that answers every
    page of a project with 500 records or more (one that ignores the [page]
    parameter, say), the loop has not ended after any number of requests. *)
Theorem paging_never_ends_on_full_pages fromisoformat_utc api_system utcnow
    project_id fuel :
  (forall page, 1 <= page -> full_page api_system project_id page) ->
  fetch_pages_loop fromisoformat_utc api_system utcnow fuel project_id 1 = None.
Proof.
  intro Hfull. now apply fetch_pages_loop_runs_on.
Qed.

Lemma paging_never_ends_on_full_pages_witness :
  fetch_pages_loop sample_fromisoformat_utc endless_api sample_utcnow 3 "P1" 1 = None.
Proof.
  apply (paging_never_ends_on_full_pages sample_fromisoformat_utc endless_api sample_utcnow
           "P1" 3).
  intros page _. exists (repeat raw_anonymous 500). split; [reflexivity|].
  rewrite repeat_length. lia.
Defined.

(** X18. The projects are fetched one after the other and their records
    concatenated in that order: when the paging loop of every project ends,
    [all_data] is what the entry point's model of the fetch takes it to be,
    so that a project whose first request fails contributes nothing and
    takes nothing away from the others. *)
Theorem projects_fetched_in_turn fromisoformat_utc api_system utcnow fuel
    (fetch_pages : string -> list SystemRecord) project_ids :
  (forall project_id, In project_id project_ids ->
     fetch_pages_loop fromisoformat_utc api_system utcnow fuel project_id 1 =
     Some (fetch_pages project_id)) ->
  paged_fetch_data_for_projects fromisoformat_utc api_system utcnow fuel project_ids =
  Some (fetch_data_for_projects fetch_pages project_ids).
Proof.
  induction project_ids as [|project_id rest IH]; intro H; [reflexivity|].
  simpl. rewrite (H project_id (or_introl eq_refl)).
  rewrite IH by (intros p Hp; apply H; now right).
  reflexivity.
Qed.

Lemma projects_fetched_in_turn_witness :
  paged_fetch_data_for_projects sample_fromisoformat_utc sample_api sample_utcnow 1
    ["P2"; "P1"] =
  Some (fetch_data_for_projects
          (fun project_id =>
             page_records sample_api sample_fromisoformat_utc sample_utcnow project_id 1)
          ["P2"; "P1"]).
Proof.
  apply (projects_fetched_in_turn sample_fromisoformat_utc sample_api sample_utcnow 1
           (fun project_id =>
              page_records sample_api sample_fromisoformat_utc sample_utcnow project_id 1)
           ["P2"; "P1"]).
  intros project_id [<-|[<-|[]]]; reflexivity.
Defined.

(** * Properties of the entry point *)

(** X19. An empty fetch never reaches the store: when the selected projects
    yield no record (or no project is listed or selected), [main] lists the
    projects, fetches the selected ones and stops; it does not connect, create
    tables or reconcile. *)
Theorem empty_fetch_skips_store isoformat raises now env projects fetch_pages
    pyodbc_connect :
  fetch_data_for_projects fetch_pages (select_project_ids projects) = [] ->
  main isoformat raises now env projects fetch_pages pyodbc_connect =
  Ran (GET_project :: map GET_system (select_project_ids projects)) None.
Proof.
  intro Hempty. unfold main. destruct projects as [|proj projects']; [reflexivity|].
  now rewrite Hempty.
Qed.

Lemma empty_fetch_skips_store_witness :
  main sample_isoformat never_raises sample_now env_without_login sample_projects
    (fun _ => []) (fun _ => Some store_S1) =
  Ran (GET_project :: map GET_system (select_project_ids sample_projects)) None.
Proof.
  apply (empty_fetch_skips_store sample_isoformat never_raises sample_now env_without_login
           sample_projects (fun _ => []) (fun _ => Some store_S1)).
  reflexivity.
Defined.

(** X20. Without a project whose name contains ["GFTX"] the run does nothing
    beyond listing the projects: no system is fetched and the store is not
    contacted. *)
Theorem no_selected_project_no_work isoformat raises now env projects fetch_pages
    pyodbc_connect :
  (forall proj, In proj projects -> ~ occurs_in "GFTX" (proj_name proj)) ->
  main isoformat raises now env projects fetch_pages pyodbc_connect =
  Ran [GET_project] None.
Proof.
  intro Hnone.
  assert (Hsel : select_project_ids projects = []).
  { destruct (select_project_ids projects) as [|pid pids] eqn:E; [reflexivity|].
    assert (Hin : In pid (select_project_ids projects)) by (rewrite E; now left).
    apply select_project_ids_spec in Hin as [proj [Hproj [_ Hname]]].
    now destruct (Hnone proj Hproj). }
  unfold main. destruct projects as [|proj projects']; [reflexivity|].
  rewrite Hsel. reflexivity.
Qed.

Lemma no_selected_project_no_work_witness :
  main sample_isoformat never_raises sample_now env_without_login
    [mkProject "P2" "Harbour Tower"; mkProject "P3" "gftx annex"]
    (fun _ => [fetched_S2]) (fun _ => Some store_S1) =
  Ran [GET_project] None.
Proof.
  apply (no_selected_project_no_work sample_isoformat never_raises sample_now
           env_without_login
           [mkProject "P2" "Harbour Tower"; mkProject "P3" "gftx annex"]
           (fun _ => [fetched_S2]) (fun _ => Some store_S1)).
  intros proj [<-|[<-|[]]] Hocc; apply py_in_occurs in Hocc; vm_compute in Hocc;
    discriminate Hocc.
Defined.

Lemma missing_checked_variable_aborts_witness :
  program sample_isoformat never_raises sample_now env_without_identifier
    sample_projects (fun _ => [fetched_S2]) (fun _ => Some store_S1) =
  ValueError "Missing environment variables".
Proof.
  apply (missing_checked_variable_aborts sample_isoformat never_raises sample_now
           env_without_identifier sample_projects (fun _ => [fetched_S2])
           (fun _ => Some store_S1)).
  left. reflexivity.
Defined.

(** * Failures between the two writes of an update *)

(** X21. An [UPDATE] that raises leaves its archive behind: for a changed
    record whose history [INSERT] goes through and whose [UPDATE] raises, the
    body ends by the exception with the persisted row appended to the history
    table and counted in [historical_count], the main table, [rows_updated]
    and the log as before; the loop goes on with that state, nothing rolled
    back. *)
Theorem failed_update_leaves_archive isoformat raises now i record sid existing_record
    rest st :
  system_id record = Some sid ->
  select_fetchone sid (session (connection st)) = Some existing_record ->
  ~ same_compared record existing_record ->
  raises i SELECT_main = false ->
  raises i INSERT_history = false ->
  raises i UPDATE_main = true ->
  process_record isoformat raises now i record st = (None, archived existing_record st) /\
  upsert_loop isoformat raises now i (record :: rest) st =
  upsert_loop isoformat raises now (S i) rest (archived existing_record st).
Proof.
  intros Hid Hsel Hdiff Hs Hh Hu.
  assert (Hbody : process_record isoformat raises now i record st =
                  (None, archived existing_record st)).
  { unfold process_record. rewrite Hid.
    unfold bind, execute_select. rewrite Hs, Hsel.
    pose proof (record_changed_true isoformat (now i) sid _ _ Hdiff) as Hflag.
    destruct (compare_records isoformat (now i) sid record existing_record)
      as [record_changed change_details].
    simpl in Hflag. subst record_changed.
    unfold execute. rewrite Hh. simpl. rewrite Hu. reflexivity. }
  split; [exact Hbody|]. simpl. now rewrite Hbody.
Qed.

Lemma failed_update_leaves_archive_witness :
  process_record sample_isoformat (raises_at 0 UPDATE_main) sample_now 0 fetched_S1_A2
    (initial_state (connect store_S1)) =
  (None, archived row_S1_A (initial_state (connect store_S1))) /\
  upsert_loop sample_isoformat (raises_at 0 UPDATE_main) sample_now 0
    [fetched_S1_A2; fetched_S2] (initial_state (connect store_S1)) =
  upsert_loop sample_isoformat (raises_at 0 UPDATE_main) sample_now 1
    [fetched_S2] (archived row_S1_A (initial_state (connect store_S1))).
Proof.
  apply (failed_update_leaves_archive sample_isoformat (raises_at 0 UPDATE_main) sample_now
           0 fetched_S1_A2 "S1" row_S1_A [fetched_S2] (initial_state (connect store_S1))).
  - reflexivity.
  - reflexivity.
  - intros [_ [Hname _]]. discriminate Hname.
  - reflexivity.
  - reflexivity.
  - reflexivity.
Defined.

(** X22. A run without failures leaves nothing uncommitted: started on a
    fresh connection, it ends with the durable tables equal to the tables the
    connection sees. *)
Theorem failure_free_run_is_committed isoformat raises now db data :
  (forall i s, raises i s = false) ->
  committed (connection (final (upsert_data isoformat raises now (connect db) data))) =
  session (connection (final (upsert_data isoformat raises now (connect db) data))).
Proof.
  intro never. unfold upsert_data.
  apply (upsert_loop_committed isoformat raises now never). reflexivity.
Qed.

Lemma failure_free_run_is_committed_witness :
  committed (connection (final (upsert_data sample_isoformat never_raises sample_now
                                  (connect store_S1) [fetched_S1_A2; fetched_S2]))) =
  session (connection (final (upsert_data sample_isoformat never_raises sample_now
                                (connect store_S1) [fetched_S1_A2; fetched_S2]))).
Proof.
  apply (failure_free_run_is_committed sample_isoformat never_raises sample_now store_S1
           [fetched_S1_A2; fetched_S2]).
  reflexivity.
Defined.

(** * A record that fails at once *)

(** The body reads the oracles at its own index only. *)
Lemma process_record_ext isoformat raises now raises' now' i i' record st :
  (forall s, raises i s = raises' i' s) ->
  now i = now' i' ->
  process_record isoformat raises now i record st =
  process_record isoformat raises' now' i' record st.
Proof.
  intros Hr Hn. unfold process_record, bind, execute, execute_select.
  rewrite !Hr, Hn. reflexivity.
Qed.

Lemma upsert_loop_reindex isoformat raises now raises' now' data :
  forall i i' st,
    (forall j s, raises (i + j) s = raises' (i' + j) s) ->
    (forall j, now (i + j) = now' (i' + j)) ->
    upsert_loop isoformat raises now i data st =
    upsert_loop isoformat raises' now' i' data st.
Proof.
  induction data as [|record rest IH]; intros i i' st Hr Hn; [reflexivity|].
  simpl.
  rewrite (process_record_ext isoformat raises now raises' now' i i' record st).
  - assert (Hc : raises i COMMIT = raises' i' COMMIT).
    { specialize (Hr 0 COMMIT). now rewrite !Nat.add_0_r in Hr. }
    rewrite Hc.
    assert (Hr' : forall j s, raises (S i + j) s = raises' (S i' + j) s).
    { intros j s. specialize (Hr (S j) s). now rewrite !Nat.add_succ_r in Hr. }
    assert (Hn' : forall j, now (S i + j) = now' (S i' + j)).
    { intro j. specialize (Hn (S j)). now rewrite !Nat.add_succ_r in Hn. }
    destruct (process_record isoformat raises' now' i' record st) as [[[]|] st'].
    + destruct (raises' i' COMMIT); [reflexivity|]. now apply IH.
    + now apply IH.
  - intro s. specialize (Hr 0 s). now rewrite !Nat.add_0_r in Hr.
  - specialize (Hn 0). now rewrite !Nat.add_0_r in Hn.
Qed.

Lemma process_record_fails_at_once isoformat raises now i record st :
  raises i (first_statement record) = true ->
  process_record isoformat raises now i record st = (None, st).
Proof.
  unfold first_statement, process_record, bind, execute, execute_select.
  destruct (system_id record); intro H; now rewrite H.
Qed.

Lemma upsert_loop_skips_failed isoformat raises now record after before :
  forall i st,
    raises (i + length before) (first_statement record) = true ->
    upsert_loop isoformat raises now i (before ++ record :: after) st =
    upsert_loop isoformat
      (without_index (i + length before) raises) (without_index (i + length before) now)
      i (before ++ after) st.
Proof.
  induction before as [|record0 before IH]; intros i st Hfail.
  - simpl in *. rewrite Nat.add_0_r in *.
    rewrite (process_record_fails_at_once isoformat raises now i record st Hfail).
    apply upsert_loop_reindex; intros j; intros; unfold without_index;
      replace (i + j <? i)%nat with false
        by (symmetry; apply Nat.ltb_ge; lia);
      reflexivity.
  - cbn [app upsert_loop length]. cbn [length] in Hfail.
    replace (i + S (length before)) with (S i + length before) in * by lia.
    rewrite (process_record_ext isoformat
               (without_index (S i + length before) raises)
               (without_index (S i + length before) now) raises now i i record0 st).
    + assert (Hc : without_index (S i + length before) raises i COMMIT = raises i COMMIT).
      { unfold without_index.
        replace (i <? S i + length before)%nat with true
          by (symmetry; apply Nat.ltb_lt; lia).
        reflexivity. }
      rewrite Hc.
      destruct (process_record isoformat raises now i record0 st) as [[[]|] st'].
      * destruct (raises i COMMIT); [reflexivity|]. now apply IH.
      * now apply IH.
    + intro s. unfold without_index.
      replace (i <? S i + length before)%nat with true
        by (symmetry; apply Nat.ltb_lt; lia).
      reflexivity.
    + unfold without_index.
      replace (i <? S i + length before)%nat with true
        by (symmetry; apply Nat.ltb_lt; lia).
      reflexivity.
Qed.

(** X23. A record that fails at its first statement is as good as absent: when
    the first statement of record number [k] raises (its [SELECT], or its
    [INSERT] for a record without [system_id]), the run ends exactly as the
    run on the batch without that record does, the other records meeting the
    same failures and clock readings as before: same tables, durable and as
    seen, same counts, same log, same way of ending. *)
Theorem failed_record_is_skipped isoformat raises now conn before record after :
  raises (length before) (first_statement record) = true ->
  upsert_data isoformat raises now conn (before ++ record :: after) =
  upsert_data isoformat
    (without_index (length before) raises) (without_index (length before) now)
    conn (before ++ after).
Proof.
  intro Hfail. unfold upsert_data.
  exact (upsert_loop_skips_failed isoformat raises now record after before 0
           (initial_state conn) Hfail).
Qed.

Lemma failed_record_is_skipped_witness :
  upsert_data sample_isoformat (raises_at 1 SELECT_main) sample_now (connect store_S1)
    ([fetched_S2] ++ fetched_S1_A2 :: [fetched_null_P1]) =
  upsert_data sample_isoformat
    (without_index 1 (raises_at 1 SELECT_main)) (without_index 1 sample_now)
    (connect store_S1) ([fetched_S2] ++ [fetched_null_P1]).
Proof.
  apply (failed_record_is_skipped sample_isoformat (raises_at 1 SELECT_main) sample_now
           (connect store_S1) [fetched_S2] fetched_S1_A2 [fetched_null_P1]).
  reflexivity.
Defined.
